(** * Session continuity of the mock-interview application

    A shallow embedding of the session manager (saveInterviewSession,
    loadInterviewSession, clearInterviewSession, upgradeSessionFormat,
    getSessionStats), of the identity handlers of the auth hook
    (the SIGNED_IN / SIGNED_OUT branches of onAuthStateChange,
    clearUserInterviewData, checkInterviewState) and of the session literal
    built by AppContent, together with the properties the specification
    states about them.

    Browser state is explicit: the two Web Storage areas are finite maps
    from keys to strings, Date.now() reads an oracle clock, storage writes
    may be rejected by the browser, and every observable action (storage
    access, alert, console output) is recorded in a trace. JavaScript
    exceptions are the [Throw] outcome of a state-and-error monad. *)

From Stdlib Require Import ZArith QArith String Ascii List Lia.
From Stdlib Require PrimFloat.
From stdpp Require Import base option countable strings gmap.

Local Open Scope string_scope.
Local Open Scope Z_scope.

(* ===================================================================== *)
(** ** Data model *)
(* ===================================================================== *)

Module Model.

(** Modelled from the spec: the declaration file types/interview.ts is not
    among the sources. The settings are "industry, type, target question
    count"; the session manager reads only [questionCount]. *)
Record InterviewSettings := mkSettings {
  industry : string;
  interviewType : string;
  questionCount : Z
}.

(** Modelled from the spec: a question/answer record of types/interview.ts;
    AppContent reads only [timestamp]. *)
Record InterviewQuestion := mkQuestion {
  question : string;
  answer : string;
  timestamp : Z
}.

(** The object literal assigned to interviewMetrics by upgradeSessionFormat. *)
Record InterviewMetrics := mkMetrics {
  totalResponseTime : Z;
  averageResponseLength : Z;
  deepDiveCount : Z
}.

(** Modelled from the spec: the interface InterviewSession of
    types/interview.ts. Its fields are the seven of the literal built in
    AppContent and the three added by upgradeSessionFormat. A field that a
    stored record may lack is an [option]; [None] is JavaScript's
    undefined. Numbers that hold instants and counts are integers. *)
Record InterviewSession := mkSession {
  settings : InterviewSettings;
  questions : list InterviewQuestion;
  currentQuestionIndex : Z;
  isCompleted : bool;
  startTime : Z;
  lastUpdated : option Z;
  version : option string;
  conversationQuality : option string;
  coveredTopics : option (list string);
  interviewMetrics : option InterviewMetrics
}.

(** The names of the fields of a session, to speak about "every field". *)
Inductive field :=
  | Fsettings | Fquestions | FcurrentQuestionIndex | FisCompleted | FstartTime
  | FlastUpdated | Fversion | FconversationQuality | FcoveredTopics
  | FinterviewMetrics.

(** The value a session holds in a field; absent optional fields are [None]. *)
Inductive field_value :=
  | VSettings (x : InterviewSettings)
  | VQuestions (x : list InterviewQuestion)
  | VNumber (x : Z)
  | VBoolean (x : bool)
  | VString (x : string)
  | VTopics (x : list string)
  | VMetrics (x : InterviewMetrics).

Definition get_field (f : field) (s : InterviewSession) : option field_value :=
  match f with
  | Fsettings => Some (VSettings (settings s))
  | Fquestions => Some (VQuestions (questions s))
  | FcurrentQuestionIndex => Some (VNumber (currentQuestionIndex s))
  | FisCompleted => Some (VBoolean (isCompleted s))
  | FstartTime => Some (VNumber (startTime s))
  | FlastUpdated => VNumber <$> lastUpdated s
  | Fversion => VString <$> version s
  | FconversationQuality => VString <$> conversationQuality s
  | FcoveredTopics => VTopics <$> coveredTopics s
  | FinterviewMetrics => VMetrics <$> interviewMetrics s
  end.

End Model.
Export Model.

(* ===================================================================== *)
(** ** The browser *)
(* ===================================================================== *)

Module Browser.

(** sessionStorage and localStorage. *)
Inductive scope := SessionScope | LocalScope.

(** What a JavaScript catch clause can receive here. [DOMException code]
    carries the legacy numeric code (22 is QUOTA_EXCEEDED_ERR); every other
    error object is an [OtherError] with its name. *)
Inductive exn :=
  | DOMException (code : Z)
  | SyntaxError
  | OtherError (name : string).

(** Observable actions, most recent first in the trace. A call of setItem
    is recorded whether or not the browser accepts the write. *)
Inductive event :=
  | GetItem (sc : scope) (key : string)
  | SetItem (sc : scope) (key value : string)
  | RemoveItem (sc : scope) (key : string)
  | Alert (message : string)
  | ConsoleLog (message : string)
  | ConsoleError (message : string).

(** The state of the page. [clock] and [ticks] are the oracle of Date.now():
    the n-th call returns [clock n]. [faults] is the oracle of setItem: each
    call consumes one entry and throws the error it holds, if any; when the
    list is exhausted every write succeeds. *)
Record World := mkWorld {
  sessionStorage : gmap string string;
  localStorage : gmap string string;
  clock : nat → Z;
  ticks : nat;
  faults : list (option exn);
  trace : list event
}.

Inductive outcome (A : Type) :=
  | Return (a : A)
  | Throw (e : exn).
Arguments Return {A} a.
Arguments Throw {A} e.

(** Computations that read and write the page and may throw. *)
Definition M (A : Type) : Type := World → outcome A * World.

Definition ret {A} (a : A) : M A := λ w, (Return a, w).

Definition throw {A} (e : exn) : M A := λ w, (Throw e, w).

Definition bind {A B} (m : M A) (k : A → M B) : M B :=
  λ w, match m w with
       | (Return a, w') => k a w'
       | (Throw e, w') => (Throw e, w')
       end.

(** try { m } catch (error) { handler error } *)
Definition try_catch {A} (m : M A) (handler : exn → M A) : M A :=
  λ w, match m w with
       | (Return a, w') => (Return a, w')
       | (Throw e, w') => handler e w'
       end.

Notation "'let*' x ':=' m 'in' k" := (bind m (λ x, k))
  (at level 10, x name, m at level 100, k at level 200).
Notation "m ;;; k" := (bind m (λ _, k))
  (at level 100, k at level 200, right associativity).

Definition store_of (sc : scope) (w : World) : gmap string string :=
  match sc with
  | SessionScope => sessionStorage w
  | LocalScope => localStorage w
  end.

Definition with_store (sc : scope) (st : gmap string string) (w : World) : World :=
  match sc with
  | SessionScope =>
      mkWorld st (localStorage w) (clock w) (ticks w) (faults w) (trace w)
  | LocalScope =>
      mkWorld (sessionStorage w) st (clock w) (ticks w) (faults w) (trace w)
  end.

Definition emit (e : event) : M unit :=
  λ w, (Return tt,
        mkWorld (sessionStorage w) (localStorage w) (clock w) (ticks w)
                (faults w) (e :: trace w)).

(** Storage.getItem: the stored string, or null ([None]) for a missing key. *)
Definition getItem (sc : scope) (key : string) : M (option string) :=
  emit (GetItem sc key) ;;; λ w, (Return (store_of sc w !! key), w).

(** Storage.setItem: stores the string unless the browser rejects the write. *)
Definition setItem (sc : scope) (key value : string) : M unit :=
  emit (SetItem sc key value) ;;;
  λ w, match faults w with
       | Some e :: rest =>
           (Throw e,
            mkWorld (sessionStorage w) (localStorage w) (clock w) (ticks w)
                    rest (trace w))
       | None :: rest =>
           (Return tt,
            with_store sc (<[key := value]> (store_of sc w))
              (mkWorld (sessionStorage w) (localStorage w) (clock w) (ticks w)
                       rest (trace w)))
       | [] => (Return tt, with_store sc (<[key := value]> (store_of sc w)) w)
       end.

(** Storage.removeItem: nothing happens for a missing key. *)
Definition removeItem (sc : scope) (key : string) : M unit :=
  emit (RemoveItem sc key) ;;;
  λ w, (Return tt, with_store sc (delete key (store_of sc w)) w).

(** Date.now() *)
Definition Date_now : M Z :=
  λ w, (Return (clock w (ticks w)),
        mkWorld (sessionStorage w) (localStorage w) (clock w) (S (ticks w))
                (faults w) (trace w)).

Definition alert (message : string) : M unit := emit (Alert message).
Definition console_log (message : string) : M unit := emit (ConsoleLog message).
Definition console_error (message : string) : M unit := emit (ConsoleError message).

(** ToBoolean of a string-or-null: null and the empty string are falsy. *)
Definition truthy (v : option string) : bool :=
  match v with
  | Some s => negb (String.eqb s "")
  | None => false
  end.

End Browser.
Export Browser.

(* ===================================================================== *)
(** ** JSON *)
(* ===================================================================== *)

(** JSON.stringify and JSON.parse at the type of sessions: the session
    manager declares what it parses as InterviewSession | null, and the
    model reads stored texts at that type. [JSON_parse] answers [None]
    where JSON.parse throws a SyntaxError, [Some None] for a text whose
    value is null, and [Some (Some s)] for the text of a session object.
    The two laws are all the session manager relies on: a session survives
    serialisation, and its text is a non-empty string. *)
Class JSON := {
  JSON_stringify : InterviewSession → string;
  JSON_parse : string → option (option InterviewSession);
  JSON_parse_stringify : ∀ s, JSON_parse (JSON_stringify s) = Some (Some s);
  JSON_stringify_truthy : ∀ s, JSON_stringify s ≠ ""
}.

(** [saved ? JSON.parse(saved) : null] *)
Definition parse_if_truthy `{JSON} (saved : option string)
  : M (option InterviewSession) :=
  match saved with
  | Some text =>
      if String.eqb text "" then ret None
      else match JSON_parse text with
           | Some value => ret value
           | None => throw SyntaxError
           end
  | None => ret None
  end.

(* ===================================================================== *)
(** ** services/sessionManager *)
(* ===================================================================== *)

Module SessionManager.

Definition SESSION_KEY : string := "interviewSession".
Definition BACKUP_KEY : string := "interviewSessionBackup".
Definition SESSION_TIMEOUT : Z := 2 * 60 * 60 * 1000.

(** The alert of saveInterviewSession: the storage is short of capacity,
    clear the browser cache. *)
Definition QUOTA_MESSAGE : string :=
  "ストレージ容量が不足しています。ブラウザのキャッシュをクリアしてください。".

(** [{ ...session, lastUpdated: now, version: '2.0' }] *)
Definition sessionWithTimestamp (now : Z) (session : InterviewSession)
  : InterviewSession :=
  {| settings := settings session;
     questions := questions session;
     currentQuestionIndex := currentQuestionIndex session;
     isCompleted := isCompleted session;
     startTime := startTime session;
     lastUpdated := Some now;
     version := Some "2.0";
     conversationQuality := conversationQuality session;
     coveredTopics := coveredTopics session;
     interviewMetrics := interviewMetrics session |}.

(** [error instanceof DOMException && error.code === 22] *)
Definition is_quota_exceeded (error : exn) : bool :=
  match error with
  | DOMException code => code =? 22
  | _ => false
  end.

(** The object literal returned by upgradeSessionFormat, [now] being the
    value of its Date.now(). *)
Definition upgradedSession (now : Z) (oldSession : InterviewSession)
  : InterviewSession :=
  {| settings := settings oldSession;
     questions := questions oldSession;
     currentQuestionIndex := currentQuestionIndex oldSession;
     isCompleted := isCompleted oldSession;
     startTime := startTime oldSession;
     version := Some "2.0";
     lastUpdated := Some now;
     conversationQuality := Some "moderate";
     coveredTopics := Some [];
     interviewMetrics := Some (mkMetrics 0 0 0) |}.

Definition upgradeSessionFormat (oldSession : InterviewSession)
  : M InterviewSession :=
  let* now := Date_now in
  ret (upgradedSession now oldSession).

(** [session.lastUpdated || session.startTime]: an absent lastUpdated and
    the number 0 are both falsy. *)
Definition lastUpdated_or_startTime (session : InterviewSession) : Z :=
  match lastUpdated session with
  | Some t => if t =? 0 then startTime session else t
  | None => startTime session
  end.

(** [now - lastUpdated > SESSION_TIMEOUT] *)
Definition is_expired (now : Z) (session : InterviewSession) : bool :=
  now - lastUpdated_or_startTime session >? SESSION_TIMEOUT.

(** [!session.version || session.version < '2.0']: an absent version and
    the empty string are falsy; two strings compare by code units. *)
Definition needs_upgrade (session : InterviewSession) : bool :=
  match version session with
  | Some v => String.eqb v "" || String.ltb v "2.0"
  | None => true
  end.

Definition clearInterviewSession : M unit :=
  try_catch
    (removeItem SessionScope SESSION_KEY ;;;
     removeItem LocalScope BACKUP_KEY ;;;
     console_log "Session cleared successfully")
    (λ error, console_error "Failed to clear session:").

(** A JavaScript number that need not be an integer: the quotient of two
    integers is an exact rational (the rounding of doubles is not
    modelled), and division by zero gives an infinity or NaN instead of
    throwing. *)
Inductive number :=
  | Finite (q : Q)
  | PosInfinity
  | NegInfinity
  | NaN.

(** [a / b] for integers a and b *)
Definition js_div (a b : Z) : number :=
  if b =? 0 then
    if a =? 0 then NaN else if 0 <? a then PosInfinity else NegInfinity
  else Finite (inject_Z a / inject_Z b)%Q.

(** [x * c] for an integer c *)
Definition js_mul (x : number) (c : Z) : number :=
  match x with
  | Finite q => Finite (q * inject_Z c)%Q
  | PosInfinity =>
      if c =? 0 then NaN else if 0 <? c then PosInfinity else NegInfinity
  | NegInfinity =>
      if c =? 0 then NaN else if 0 <? c then NegInfinity else PosInfinity
  | NaN => NaN
  end.

(** The object returned by getSessionStats. *)
Module Stats.
Record t := mk {
  hasActiveSession : bool;
  sessionAge : Z;
  questionCount : Z;
  completionRate : number
}.
End Stats.

Section WithJSON.
Context `{JSON}.

(** The try block of saveInterviewSession. *)
Definition saveInterviewSession_try (session : InterviewSession) : M unit :=
  let* now := Date_now in
  let stamped := sessionWithTimestamp now session in
  setItem SessionScope SESSION_KEY (JSON_stringify stamped) ;;;
  setItem LocalScope BACKUP_KEY (JSON_stringify stamped) ;;;
  console_log "Session saved successfully:".

(** The catch clause of saveInterviewSession. *)
Definition saveInterviewSession_catch (error : exn) : M unit :=
  console_error "Failed to save session:" ;;;
  if is_quota_exceeded error then alert QUOTA_MESSAGE else ret tt.

Definition saveInterviewSession (session : InterviewSession) : M unit :=
  try_catch (saveInterviewSession_try session) saveInterviewSession_catch.

Definition loadInterviewSession : M (option InterviewSession) :=
  try_catch
    (let* saved := getItem SessionScope SESSION_KEY in
     let* session := parse_if_truthy saved in
     let* session :=
       match session with
       | Some _ => ret session
       | None =>
           let* backup := getItem LocalScope BACKUP_KEY in
           let* session := parse_if_truthy backup in
           match session with
           | Some restored =>
               console_log "Session restored from backup" ;;;
               setItem SessionScope SESSION_KEY (JSON_stringify restored) ;;;
               ret session
           | None => ret session
           end
       end in
     match session with
     | Some found =>
         let* now := Date_now in
         if is_expired now found then
           console_log "Session expired, clearing data" ;;;
           clearInterviewSession ;;;
           ret None
         else
           let* session :=
             if needs_upgrade found then
               console_log "Upgrading session to version 2.0" ;;;
               let* upgraded := upgradeSessionFormat found in
               saveInterviewSession upgraded ;;;
               ret upgraded
             else ret found in
           console_log "Session loaded successfully:" ;;;
           ret (Some session)
     | None => ret None
     end)
    (λ error,
       console_error "Failed to load session:" ;;;
       clearInterviewSession ;;;
       ret None).

Definition getSessionStats : M Stats.t :=
  let* session := loadInterviewSession in
  match session with
  | None =>
      ret {| Stats.hasActiveSession := false;
             Stats.sessionAge := 0;
             Stats.questionCount := 0;
             Stats.completionRate := Finite 0 |}
  | Some session =>
      let* now := Date_now in
      let sessionAge := now - startTime session in
      let questionCount := Z.of_nat (length (questions session)) in
      let completionRate :=
        js_mul (js_div questionCount (Model.questionCount (settings session)))
               100 in
      ret {| Stats.hasActiveSession := true;
             Stats.sessionAge := sessionAge;
             Stats.questionCount := questionCount;
             Stats.completionRate := completionRate |}
  end.

End WithJSON.

End SessionManager.
Export SessionManager.

(* ===================================================================== *)
(** ** services/sessionManager: the statistics in double precision *)
(* ===================================================================== *)

Module Doubles.
Import PrimFloat.

(** The double that holds an integer, built from its binary digits; exact
    for every integer below 2^53 in absolute value. *)
Fixpoint of_pos (p : positive) : float :=
  match p with
  | xH => 1%float
  | xO p => (2 * of_pos p)%float
  | xI p => (2 * of_pos p + 1)%float
  end.

Definition of_Z (z : Z) : float :=
  match z with
  | Z0 => 0%float
  | Zpos p => of_pos p
  | Zneg p => (- of_pos p)%float
  end.

(** [(questionCount / session.settings.questionCount) * 100], in binary64
    with the rounding of each operation. *)
Definition completionRate (questionCount configured : Z) : float :=
  (of_Z questionCount / of_Z configured * 100)%float.




Module Stats.
Record t := mk {
  hasActiveSession : bool;
  sessionAge : Z;
  questionCount : Z;
  completionRate : float
}.
End Stats.

Definition no_session : Stats.t :=
  {| Stats.hasActiveSession := false;
     Stats.sessionAge := 0;
     Stats.questionCount := 0;
     Stats.completionRate := 0%float |}.

(** getSessionStats once more, with completionRate as the double the code
    computes instead of an exact rational. *)
Definition getSessionStats `{JSON} : M Stats.t :=
  let* session := loadInterviewSession in
  match session with
  | None => ret no_session
  | Some session =>
      let* now := Date_now in
      let sessionAge := now - startTime session in
      let questionCount := Z.of_nat (length (questions session)) in
      let rate :=
        completionRate questionCount (Model.questionCount (settings session)) in
      ret {| Stats.hasActiveSession := true;
             Stats.sessionAge := sessionAge;
             Stats.questionCount := questionCount;
             Stats.completionRate := rate |}
  end.

End Doubles.

(* ===================================================================== *)
(** ** hooks/useAuth *)
(* ===================================================================== *)

Module Auth.

(** [array.forEach(body)] *)
Fixpoint forEach {A} (array : list A) (body : A → M unit) : M unit :=
  match array with
  | [] => ret tt
  | x :: rest => body x ;;; forEach rest body
  end.

Definition clearUserInterviewData (userId : string) : M unit :=
  let interviewKeys :=
    [ "interview_" +:+ userId +:+ "_session";
      "interview_" +:+ userId +:+ "_backup";
      "interviewSession";
      "interviewSessionBackup" ] in
  forEach interviewKeys
    (λ key,
       try_catch
         (removeItem LocalScope key ;;;
          removeItem SessionScope key)
         (λ error, console_error "Error clearing storage key:")) ;;;
  console_log "Cleared interview data for user:".

(** The events of supabase.auth.onAuthStateChange that the hook tells
    apart; every other event is [OTHER_EVENT]. *)
Inductive AuthChangeEvent := SIGNED_IN | SIGNED_OUT | OTHER_EVENT.

(** The storage part of the callback given to onAuthStateChange. [session]
    is [session.user.id] when a session comes with the event. Cleaning the
    URL fragment and the React state setters touch no storage and are left
    out. *)
Definition onAuthStateChange (event : AuthChangeEvent) (session : option string)
  : M unit :=
  console_log "Auth state changed:" ;;;
  match event, session with
  | SIGNED_IN, Some userId =>
      let* previousUserId := getItem LocalScope "currentUserId" in
      match previousUserId with
      | Some previous =>
          if negb (String.eqb previous "") && negb (String.eqb previous userId)
          then
            console_log "User switched, clearing previous user data" ;;;
            clearUserInterviewData previous
          else ret tt
      | None => ret tt
      end ;;;
      setItem LocalScope "currentUserId" userId
  | _, _ => ret tt
  end ;;;
  match event with
  | SIGNED_OUT =>
      console_log "User signed out, clearing all interview data" ;;;
      let* previousUserId := getItem LocalScope "currentUserId" in
      match previousUserId with
      | Some previous =>
          if negb (String.eqb previous "") then clearUserInterviewData previous
          else ret tt
      | None => ret tt
      end ;;;
      removeItem LocalScope "currentUserId"
  | _ => ret tt
  end.

Definition checkInterviewState (userId : string) : M bool :=
  if String.eqb userId "" then ret false
  else
    try_catch
      (let sessionKey := "interview_" +:+ userId +:+ "_session" in
       let backupKey := "interview_" +:+ userId +:+ "_backup" in
       let* fromSession := getItem SessionScope sessionKey in
       let* sessionData :=
         if truthy fromSession then ret fromSession
         else getItem LocalScope backupKey in
       ret (truthy sessionData))
      (λ error,
         console_error "Error checking interview state:" ;;;
         ret false).

End Auth.
Export Auth.

(* ===================================================================== *)
(** ** App *)
(* ===================================================================== *)

Module App.

(** The session literal of AppContent's saving effect. The properties are
    evaluated in order, and
    [interviewQuestions[0]?.timestamp || Date.now()] reads the clock only
    when there is no first question or its timestamp is 0. *)
Definition currentSession (interviewSettings : InterviewSettings)
    (interviewQuestions : list InterviewQuestion) : M InterviewSession :=
  let* start :=
    match interviewQuestions with
    | first :: _ =>
        if timestamp first =? 0 then Date_now else ret (timestamp first)
    | [] => Date_now
    end in
  let* updated := Date_now in
  ret {| settings := interviewSettings;
         questions := interviewQuestions;
         currentQuestionIndex := Z.of_nat (length interviewQuestions) - 1;
         isCompleted := false;
         startTime := start;
         lastUpdated := Some updated;
         version := Some "3.0";
         conversationQuality := None;
         coveredTopics := None;
         interviewMetrics := None |}.

(** The body of the saving effect, up to its first save (the auto-save
    timer it then starts repeats that save). *)
Definition saveCurrentSession `{JSON} (interviewSettings : InterviewSettings)
    (interviewQuestions : list InterviewQuestion) : M unit :=
  let* session := currentSession interviewSettings interviewQuestions in
  saveInterviewSession session.

End App.
Export App.

(* ===================================================================== *)
(** ** A codec that satisfies the JSON laws *)
(* ===================================================================== *)

(** The properties below hold for every implementation of [JSON]. To run
    the model on concrete pages one implementation is needed; this one
    writes a session as an opening brace followed by the binary digits of
    its code as a countable value. *)
Module Codec.

#[export] Instance settings_eq_dec : EqDecision InterviewSettings.
Proof. solve_decision. Defined.
#[export] Instance question_eq_dec : EqDecision InterviewQuestion.
Proof. solve_decision. Defined.
#[export] Instance metrics_eq_dec : EqDecision InterviewMetrics.
Proof. solve_decision. Defined.
#[export] Instance session_eq_dec : EqDecision InterviewSession.
Proof. solve_decision. Defined.

(** Each record is coded as the list of the codes of its fields. *)
#[export] Instance settings_countable : Countable InterviewSettings.
Proof.
  refine (inj_countable
            (λ x, [encode (industry x); encode (interviewType x);
                   encode (questionCount x)])
            (λ l, match l with
                  | [a; b; c] =>
                      a ← decode a; b ← decode b; c ← decode c;
                      Some (mkSettings a b c)
                  | _ => None
                  end) _).
  intros []. by rewrite !decode_encode.
Defined.

#[export] Instance question_countable : Countable InterviewQuestion.
Proof.
  refine (inj_countable
            (λ x, [encode (question x); encode (answer x);
                   encode (timestamp x)])
            (λ l, match l with
                  | [a; b; c] =>
                      a ← decode a; b ← decode b; c ← decode c;
                      Some (mkQuestion a b c)
                  | _ => None
                  end) _).
  intros []. by rewrite !decode_encode.
Defined.

#[export] Instance metrics_countable : Countable InterviewMetrics.
Proof.
  refine (inj_countable
            (λ x, [totalResponseTime x; averageResponseLength x;
                   deepDiveCount x])
            (λ l, match l with
                  | [a; b; c] => Some (mkMetrics a b c)
                  | _ => None
                  end) _).
  by intros [].
Defined.

#[export] Instance session_countable : Countable InterviewSession.
Proof.
  refine (inj_countable
            (λ x, [encode (settings x); encode (questions x);
                   encode (currentQuestionIndex x); encode (isCompleted x);
                   encode (startTime x); encode (lastUpdated x);
                   encode (version x); encode (conversationQuality x);
                   encode (coveredTopics x); encode (interviewMetrics x)])
            (λ l, match l with
                  | [a; b; c; d; e; f; g; h; i; j] =>
                      a ← decode a; b ← decode b; c ← decode c; d ← decode d;
                      e ← decode e; f ← decode f; g ← decode g; h ← decode h;
                      i ← decode i; j ← decode j;
                      Some (mkSession a b c d e f g h i j)
                  | _ => None
                  end) _).
  intros []. by rewrite !decode_encode.
Defined.

Fixpoint digits (p : positive) : string :=
  match p with
  | xH => ""
  | xO p => String "0" (digits p)
  | xI p => String "1" (digits p)
  end.

Fixpoint undigits (text : string) : option positive :=
  match text with
  | EmptyString => Some xH
  | String c rest =>
      if Ascii.eqb c "0" then xO <$> undigits rest
      else if Ascii.eqb c "1" then xI <$> undigits rest
      else None
  end.

Definition stringify (s : InterviewSession) : string :=
  String "{" (digits (encode s)).

Definition parse (text : string) : option (option InterviewSession) :=
  if String.eqb text "null" then Some None
  else match text with
       | String c rest =>
           if Ascii.eqb c "{" then
             match undigits rest ≫= decode with
             | Some s => Some (Some s)
             | None => None
             end
           else None
       | EmptyString => None
       end.

Definition json : JSON.
Proof.
  refine {| JSON_stringify := stringify; JSON_parse := parse |}.
  - intros s. unfold parse, stringify.
    assert (Hd : ∀ p, undigits (digits p) = Some p).
    { induction p as [p IH|p IH|]; simpl; [by rewrite IH..|done]. }
    simpl. rewrite Hd. simpl. by rewrite decode_encode.
  - intros s. unfold stringify. discriminate.
Defined.

End Codec.

(* ===================================================================== *)
(** ** Observations *)
(* ===================================================================== *)

(** The outcome of a run and the page it leaves behind. *)
Definition result {A} (r : outcome A * World) : outcome A := fst r.
Definition after {A} (r : outcome A * World) : World := snd r.

(** The messages shown to the user by alert, most recent first. *)
Definition alerts (tr : list event) : list string :=
  omap (λ e, match e with Alert message => Some message | _ => None end) tr.

(** The storage reads of a trace. *)
Definition reads (sc : scope) (tr : list event) : list string :=
  omap (λ e, match e with
             | GetItem sc' key =>
                 match sc, sc' with
                 | SessionScope, SessionScope | LocalScope, LocalScope => Some key
                 | _, _ => None
                 end
             | _ => None
             end) tr.

(** The key holds a non-empty text that JSON.parse reads as session [s]. *)
Definition holds_session `{JSON} (sc : scope) (key : string) (w : World)
    (s : InterviewSession) : Prop :=
  ∃ text, store_of sc w !! key = Some text ∧ text ≠ "" ∧
          JSON_parse text = Some (Some s).

(** The schema upgrade as loadInterviewSession applies it: the version
    check followed by upgradeSessionFormat, [now] being the value Date.now()
    has inside upgradeSessionFormat. *)
Definition upgrade (now : Z) (session : InterviewSession) : InterviewSession :=
  if needs_upgrade session then upgradedSession now session else session.

(** loadInterviewSession finds [s]: under the session key or, that key being
    free, under the backup key of a browser that accepts the write that
    copies it back. *)
Definition finds `{JSON} (w : World) (s : InterviewSession) : Prop :=
  holds_session SessionScope SESSION_KEY w s ∨
  (sessionStorage w !! SESSION_KEY = None ∧
   holds_session LocalScope BACKUP_KEY w s ∧
   faults w = []).

(** The record as written: the age is taken from lastUpdated, or from
    startTime when lastUpdated is absent. *)
Definition age_as_written (now : Z) (s : InterviewSession) : Z :=
  match lastUpdated s with
  | Some t => now - t
  | None => now - startTime s
  end.

(** What load answers for a found record when the expiry check comes
    first and the upgrade second. *)
Definition expiry_then_upgrade (now later : Z) (s : InterviewSession)
  : option InterviewSession :=
  if is_expired now s then None else Some (upgrade later s).

(** What load would answer for a found record if, as the specification
    words it, the upgrade came first and the expiry check looked at the
    upgraded record. *)
Definition upgrade_then_expiry (now later : Z) (s : InterviewSession)
  : option InterviewSession :=
  let upgraded := upgrade now s in
  if is_expired later upgraded then None else Some upgraded.

(** Pages whose two storage areas contain only what saveInterviewSession
    wrote. *)
Inductive written_by_saves `{JSON} : World → Prop :=
  | written_nothing w :
      sessionStorage w = ∅ → localStorage w = ∅ → written_by_saves w
  | written_save w s :
      written_by_saves w → written_by_saves (after (saveInterviewSession s w)).

(** The four keys clearUserInterviewData removes for a user. *)
Definition interview_keys (userId : string) : list string :=
  [ "interview_" +:+ userId +:+ "_session";
    "interview_" +:+ userId +:+ "_backup";
    "interviewSession";
    "interviewSessionBackup" ].

(** The zeroed answer of getSessionStats. *)
Definition no_session_stats : Stats.t :=
  {| Stats.hasActiveSession := false;
     Stats.sessionAge := 0;
     Stats.questionCount := 0;
     Stats.completionRate := Finite 0 |}.

(* ===================================================================== *)
(** ** Concrete pages *)
(* ===================================================================== *)

Module Examples.

(** A page with the given storage areas whose clock always reads [now]. *)
Definition page (session_area local_area : gmap string string) (now : Z)
    (rejections : list (option exn)) : World :=
  {| sessionStorage := session_area;
     localStorage := local_area;
     clock := λ _, now;
     ticks := 0;
     faults := rejections;
     trace := [] |}.

(** 2023-11-14T22:13:20Z in milliseconds. *)
Definition noon : Z := 1700000000000.

Definition it_interview : InterviewSettings := mkSettings "IT" "technical" 5.

Definition two_answers : list InterviewQuestion :=
  [ mkQuestion "Why this company?" "Because of its products." 1699999000000;
    mkQuestion "Your strengths?" "Persistence." 1699999500000 ].

(** A session of the current format with two of five questions answered. *)
Definition running (updated : option Z) : InterviewSession :=
  {| settings := it_interview;
     questions := two_answers;
     currentQuestionIndex := 1;
     isCompleted := false;
     startTime := 1699999000000;
     lastUpdated := updated;
     version := Some "2.0";
     conversationQuality := None;
     coveredTopics := None;
     interviewMetrics := None |}.

(** A record without version that already carries a quality rating. *)
Definition legacy (updated : option Z) : InterviewSession :=
  {| settings := it_interview;
     questions := two_answers;
     currentQuestionIndex := 1;
     isCompleted := false;
     startTime := 1699999000000;
     lastUpdated := updated;
     version := None;
     conversationQuality := Some "excellent";
     coveredTopics := None;
     interviewMetrics := None |}.

(** The session manager's two entries for [s], as the codec of [Codec]
    writes them. *)
Definition primary_of (s : InterviewSession) : gmap string string :=
  {[ SESSION_KEY := @JSON_stringify Codec.json s ]}.
Definition backup_of (s : InterviewSession) : gmap string string :=
  {[ BACKUP_KEY := @JSON_stringify Codec.json s ]}.

(** A page that holds [s] under both keys at time [noon]. *)
Definition page_with (s : InterviewSession) : World :=
  page (primary_of s) (backup_of s) noon [].

(** A page that holds [s] under the backup key only. *)
Definition page_with_backup (s : InterviewSession) : World :=
  page ∅ (backup_of s) noon [].

(** An interview that started three hours before [noon]. *)
Definition long_running (updated : option Z) : InterviewSession :=
  {| settings := it_interview;
     questions := two_answers;
     currentQuestionIndex := 1;
     isCompleted := false;
     startTime := noon - 3 * 3600000;
     lastUpdated := updated;
     version := Some "2.0";
     conversationQuality := None;
     coveredTopics := None;
     interviewMetrics := None |}.

(** One millisecond past the timeout, and one millisecond short of it. *)
Definition just_expired : InterviewSession :=
  long_running (Some (noon - 7200000 - 1)).
Definition just_alive : InterviewSession :=
  long_running (Some (noon - 7200000 + 1)).


(** Saved a second ago; a legacy record saved a second ago, and one saved
    three hours ago. *)
Definition recent : InterviewSession := running (Some (noon - 1000)).
Definition legacy_recent : InterviewSession := legacy (Some (noon - 1000)).
Definition legacy_old : InterviewSession := legacy (Some (noon - 3 * 3600000)).

(** The browser rejects the first write for lack of space; the browser
    accepts the first write and rejects the second for another reason. *)
Definition full_page : World := page ∅ ∅ noon [Some (DOMException 22)].
Definition locked_page : World :=
  page ∅ ∅ noon [None; Some (OtherError "SecurityError")].

(** An empty page, and the page after one save. *)
Definition empty_page : World := page ∅ ∅ noon [].
Definition saved_page : World :=
  after (@saveInterviewSession Codec.json (running None) empty_page).

(** alice is the remembered identity; her session is stored under the
    unscoped keys and a draft under her scoped session key. *)
Definition alice_page : World :=
  page (<["interview_alice_session" := "draft"]> (primary_of recent))
       (<["currentUserId" := "alice"]> (backup_of recent)) noon [].
Definition bob_page : World :=
  after (onAuthStateChange SIGNED_IN (Some "bob") alice_page).

End Examples.

(* ===================================================================== *)
(** ** services/sessionManager: recovery *)
(* ===================================================================== *)

Module Recovery.

(** recoverSession. The backup text itself, not a new serialisation of the
    parsed session, is written under the session key, and only after
    JSON.parse accepted it. *)
Definition recoverSession `{JSON} : M (option InterviewSession) :=
  try_catch
    (let* backup := getItem LocalScope BACKUP_KEY in
     match backup with
     | Some text =>
         if String.eqb text "" then ret None
         else
           let* session :=
             match JSON_parse text with
             | Some value => ret value
             | None => throw SyntaxError
             end in
           console_log "Attempting session recovery:" ;;;
           setItem SessionScope SESSION_KEY text ;;;
           ret session
     | None => ret None
     end)
    (λ error,
       console_error "Failed to recover session:" ;;;
       ret None).

End Recovery.
Export Recovery.

(* ===================================================================== *)
(** ** hooks/useAuth: authHelpers.signOut *)
(* ===================================================================== *)

Module AuthHelpers.

(** authHelpers.signOut. [supabase_auth_signOut] is the call
    [await supabase.auth.signOut()] of the identity provider: whatever it
    does to the page, it answers the error of its result, [None] for
    null, or throws. The remembered identity is read before that call. *)
Definition signOut (supabase_auth_signOut : M (option string))
  : M (option string) :=
  let* currentUserId := getItem LocalScope "currentUserId" in
  let* error := supabase_auth_signOut in
  match error, currentUserId with
  | None, Some userId =>
      if negb (String.eqb userId "") then clearUserInterviewData userId
      else ret tt
  | _, _ => ret tt
  end ;;;
  ret error.

End AuthHelpers.
Export AuthHelpers.

(* ===================================================================== *)
(** ** App: the state and the handlers of AppContent *)
(* ===================================================================== *)

Module AppContent.

(** The type Screen of the component state. *)
Module Screen.
Inductive t := home | setup | interview | result.
End Screen.

(** The four useState cells of AppContent. *)
Record AppState := mkAppState {
  currentScreen : Screen.t;
  interviewSettings : option InterviewSettings;
  interviewQuestions : list InterviewQuestion;
  sessionRecovered : bool
}.

(** The state AppContent mounts with. *)
Definition initialState : AppState :=
  mkAppState Screen.home None [] false.

(** The effect on [user, loading] that loads the session on mount. [user]
    tells whether a user is signed in. The alert that a timer shows one
    second after a recovery is scheduled, not run, by this effect. *)
Definition loadOnMount `{JSON} (user loading : bool) (st : AppState)
  : M AppState :=
  if user && negb loading then
    let* savedSession := loadInterviewSession in
    match savedSession with
    | Some saved =>
        console_log "Recovering session:" ;;;
        ret (mkAppState Screen.interview (Some (settings saved))
                        (questions saved) true)
    | None => ret st
    end
  else ret st.

(** The saving effect on [currentScreen, interviewSettings,
    interviewQuestions, user], up to its first save. *)
Definition saveOnChange `{JSON} (user : bool) (st : AppState) : M unit :=
  match currentScreen st, interviewSettings st with
  | Screen.interview, Some chosen =>
      if user then saveCurrentSession chosen (interviewQuestions st)
      else ret tt
  | _, _ => ret tt
  end.

(** handleVisibilityChange of AppContent; [hidden] is document.hidden. *)
Definition handleVisibilityChange `{JSON} (hidden user : bool) (st : AppState)
  : M unit :=
  match currentScreen st with
  | Screen.interview =>
      if hidden && user then
        match interviewSettings st with
        | Some chosen => saveCurrentSession chosen (interviewQuestions st)
        | None => ret tt
        end
      else ret tt
  | _ => ret tt
  end.

(** [currentScreen === 'interview' && interviewQuestions.length > 0]: the
    condition under which handleBeforeUnload warns and handleBackToHome
    asks for confirmation. *)
Definition interviewInProgress (st : AppState) : bool :=
  match currentScreen st, interviewQuestions st with
  | Screen.interview, _ :: _ => true
  | _, _ => false
  end.

Definition handleStartInterview (st : AppState) : AppState :=
  mkAppState Screen.setup (interviewSettings st) (interviewQuestions st)
             (sessionRecovered st).

(** handleBackToHome; [confirmed] is the answer of window.confirm, asked
    only while an interview is in progress. *)
Definition handleBackToHome (confirmed : bool) (st : AppState) : M AppState :=
  if interviewInProgress st && negb confirmed then ret st
  else
    clearInterviewSession ;;;
    ret (mkAppState Screen.home None [] false).

Definition handleStartInterviewWithSettings (chosen : InterviewSettings)
    (st : AppState) : AppState :=
  mkAppState Screen.interview (Some chosen) [] false.

Definition handleInterviewComplete (answered : list InterviewQuestion)
    (st : AppState) : M AppState :=
  clearInterviewSession ;;;
  ret (mkAppState Screen.result (interviewSettings st) answered
                  (sessionRecovered st)).

Definition handleNewInterview (st : AppState) : M AppState :=
  clearInterviewSession ;;;
  ret (mkAppState Screen.home None [] false).

End AppContent.

(* ===================================================================== *)
(** ** More observations and pages *)
(* ===================================================================== *)

(** The storage writes and removals a trace records. *)
Definition mutations (tr : list event) : list event :=
  omap (λ e, match e with
             | SetItem _ _ _ | RemoveItem _ _ => Some e
             | _ => None
             end) tr.

Module Scenarios.
Import Examples.

(** Only the backup is left, and it is not JSON. *)
Definition corrupt_backup_page : World :=
  page ∅ {[ BACKUP_KEY := "{broken" ]} noon [].

(** The session key holds text that is not JSON while the backup is intact. *)
Definition corrupt_primary_page : World :=
  page {[ SESSION_KEY := "{broken" ]} (backup_of recent) noon [].

(** A new tab finds the backup only, and the browser rejects the write
    that would copy it back. *)
Definition unwritable_page : World :=
  page ∅ (backup_of recent) noon [Some (DOMException 22)].

(** The browser accepts the first write of a save and rejects the second. *)
Definition half_full_page : World :=
  page (primary_of legacy_old) (backup_of legacy_old) noon
       [None; Some (DOMException 22)].

(** A stored session, nobody remembered as signed in. *)
Definition anonymous_page : World := page_with recent.

(** alice is remembered; bob left a draft under his scoped key. *)
Definition shared_page : World :=
  page (<["interview_bob_session" := "draft"]> (primary_of recent))
       (<["currentUserId" := "alice"]> (backup_of recent)) noon [].

(** An interview with two answers, on the interview screen. *)
Definition interviewing : AppContent.AppState :=
  AppContent.mkAppState AppContent.Screen.interview (Some it_interview)
                        two_answers false.

(** The page the saving effect leaves, and the same page in a new tab,
    where sessionStorage is empty. *)
Definition interview_page : World :=
  after (@AppContent.saveOnChange Codec.json true interviewing empty_page).
Definition new_tab_page : World :=
  page ∅ (localStorage interview_page) noon [].

(** No questions are configured. *)
Definition unconfigured : InterviewSession :=
  {| settings := mkSettings "IT" "technical" 0;
     questions := two_answers;
     currentQuestionIndex := 1;
     isCompleted := false;
     startTime := 1699999000000;
     lastUpdated := Some (noon - 1000);
     version := Some "2.0";
     conversationQuality := None;
     coveredTopics := None;
     interviewMetrics := None |}.

(** The identity provider signs the user out and tells the hook so before
    it answers; the identity provider fails and leaves the page alone. *)
Definition provider_signs_out : M (option string) :=
  onAuthStateChange SIGNED_OUT None ;;; ret None.
Definition provider_fails : M (option string) := ret (Some "network").

End Scenarios.

(* ===================================================================== *)
(** ** Running the model inside proofs *)
(* ===================================================================== *)

Ltac unfold_ops :=
  unfold loadInterviewSession, saveInterviewSession, saveInterviewSession_try,
    saveInterviewSession_catch, clearInterviewSession, upgradeSessionFormat,
    getSessionStats, parse_if_truthy, try_catch, bind in *.

Ltac cases_faults fs :=
  let e := fresh "e" in let e' := fresh "e" in
  destruct fs as [|[e|] [|[e'|] fs]].

Ltac split_quota :=
  try match goal with
      | |- context [is_quota_exceeded ?e] => destruct (is_quota_exceeded e)
      end; simpl.

(** Runs loadInterviewSession on a page where it finds a session, up to the
    expiry check. *)
Ltac load_found Hfound :=
  match goal with
  | w : World |- _ =>
      let ss := fresh "ss" in let ls := fresh "ls" in let ck := fresh "ck" in
      let tk := fresh "tk" in let fs := fresh "fs" in let tr := fresh "tr" in
      let text := fresh "text" in let Hl := fresh "Hl" in
      let Hne := fresh "Hne" in let Hp := fresh "Hp" in
      let Hn := fresh "Hn" in let Hf := fresh "Hf" in
      destruct w as [ss ls ck tk fs tr];
      destruct Hfound as [(text & Hl & Hne & Hp)|(Hn & (text & Hl & Hne & Hp) & Hf)];
      simpl in *; [|subst fs];
      unfold_ops; simpl; [|rewrite Hn; simpl]; rewrite Hl;
      (destruct (String.eqb_spec text ""); [done|]); rewrite Hp; simpl
  end.

(** Runs the storage primitives and the identity handlers without
    unfolding the finite maps or the string operations. *)
Ltac run :=
  cbv beta iota zeta delta
    [bind ret throw try_catch emit getItem setItem removeItem Date_now alert
     console_log console_error store_of with_store forEach
     sessionStorage localStorage clock ticks faults trace
     result after fst snd negb andb
     onAuthStateChange clearUserInterviewData checkInterviewState].

(* ===================================================================== *)
(** ** Properties of saveInterviewSession *)
(* ===================================================================== *)

Section SaveProperties.
Context `{JSON}.

Lemma is_quota_exceeded_spec e : is_quota_exceeded e = true ↔ e = DOMException 22.
Proof.
  destruct e as [code| |name]; simpl; split; try discriminate.
  - intros Hc. apply Z.eqb_eq in Hc. by subst.
  - intros [= ->]. done.
Qed.

(** The try block of a save throws exactly the error with which the
    browser rejects its first or, the first being accepted, its second write. *)
Lemma save_try_outcome s w :
  result (saveInterviewSession_try s w) =
    match faults w with
    | Some e :: _ => Throw e
    | None :: Some e :: _ => Throw e
    | _ => Return tt
    end.
Proof.
  destruct w as [ss ls ck tk fs tr].
  destruct fs as [|[e|] [|[e'|] fs]]; reflexivity.
Qed.

(** C7. saveInterviewSession never raises: whatever the browser does to
    its writes, it returns normally. When the first write, or the second
    after an accepted first, is rejected with DOMException code 22, the
    user gets the capacity alert. No other outcome alerts: if the alerts
    changed, the try block threw DOMException 22. *)
Theorem save_never_raises s w :
  result (saveInterviewSession s w) = Return tt ∧
  (∀ rest,
     faults w = Some (DOMException 22) :: rest ∨
     faults w = None :: Some (DOMException 22) :: rest →
     alerts (trace (after (saveInterviewSession s w))) =
       QUOTA_MESSAGE :: alerts (trace w)) ∧
  (alerts (trace (after (saveInterviewSession s w))) ≠ alerts (trace w) →
   result (saveInterviewSession_try s w) = Throw (DOMException 22)).
Proof.
  destruct w as [ss ls ck tk fs tr]. simpl.
  split; [|split].
  - unfold saveInterviewSession, saveInterviewSession_catch, try_catch.
    destruct fs as [|[e|] [|[e'|] fs]]; simpl; repeat case_match; reflexivity.
  - intros rest [-> | ->]; reflexivity.
  - rewrite save_try_outcome.
    unfold saveInterviewSession, saveInterviewSession_catch, try_catch.
    destruct fs as [|[e|] [|[e'|] fs]]; simpl; try congruence;
      match goal with
      | |- context [is_quota_exceeded ?x] =>
          destruct (is_quota_exceeded x) eqn:He; simpl; try congruence;
          apply is_quota_exceeded_spec in He; by subst
      end.
Qed.
Lemma save_changes s w sc key :
  store_of sc (after (saveInterviewSession s w)) !! key ≠ store_of sc w !! key →
  (sc = SessionScope ∧ key = SESSION_KEY ∨ sc = LocalScope ∧ key = BACKUP_KEY) ∧
  store_of sc (after (saveInterviewSession s w)) !! key =
    Some (JSON_stringify (sessionWithTimestamp (clock w (ticks w)) s)).
Proof.
  destruct w as [ss ls ck tk fs tr]. unfold_ops.
  cases_faults fs; simpl; split_quota; destruct sc; simpl; try congruence;
    intros Hne;
    match goal with
    | |- context [<[?k := _]> _ !! key] =>
        destruct (decide (k = key)) as [<-|Hk];
        [rewrite lookup_insert_eq; auto
        |rewrite lookup_insert_ne in Hne by done; congruence]
    end.
Qed.

Lemma save_accepted s w :
  faults w = [] →
  sessionStorage (after (saveInterviewSession s w)) !! SESSION_KEY =
    Some (JSON_stringify (sessionWithTimestamp (clock w (ticks w)) s)) ∧
  localStorage (after (saveInterviewSession s w)) !! BACKUP_KEY =
    Some (JSON_stringify (sessionWithTimestamp (clock w (ticks w)) s)).
Proof.
  destruct w as [ss ls ck tk fs tr]. simpl. intros ->.
  unfold_ops. simpl. by rewrite !lookup_insert_eq.
Qed.

Lemma holds_stringified sc key w s :
  store_of sc w !! key = Some (JSON_stringify s) → holds_session sc key w s.
Proof.
  intros Hl. exists (JSON_stringify s).
  split; [done|]. split; [apply JSON_stringify_truthy|apply JSON_parse_stringify].
Qed.

Lemma stamped_fields now s f :
  f ≠ Fversion → f ≠ FlastUpdated →
  get_field f (sessionWithTimestamp now s) = get_field f s.
Proof. destruct f; simpl; congruence. Qed.

(** C9. saveInterviewSession writes the session with version set to '2.0'
    and lastUpdated set to the time of the save, all other fields as
    given, whatever version and lastUpdated the session carried. Every
    storage entry a save changes holds that stamped record, and when the
    browser accepts the writes both copies hold it. The session AppContent
    builds with version '3.0' is stored with version '2.0'. *)
Theorem save_stamps_version_and_time s w :
  let now := clock w (ticks w) in
  let stamped := sessionWithTimestamp now s in
  let w' := after (saveInterviewSession s w) in
  (version stamped = Some "2.0" ∧ lastUpdated stamped = Some now ∧
   ∀ f, f ≠ Fversion → f ≠ FlastUpdated → get_field f stamped = get_field f s) ∧
  (∀ sc key,
     store_of sc w' !! key ≠ store_of sc w !! key →
     store_of sc w' !! key = Some (JSON_stringify stamped)) ∧
  (faults w = [] →
   holds_session SessionScope SESSION_KEY w' stamped ∧
   holds_session LocalScope BACKUP_KEY w' stamped) ∧
  (∀ interviewSettings interviewQuestions,
     faults w = [] →
     ∃ built stored,
       result (currentSession interviewSettings interviewQuestions w) = Return built ∧
       version built = Some "3.0" ∧
       version stored = Some "2.0" ∧
       holds_session SessionScope SESSION_KEY
         (after (saveCurrentSession interviewSettings interviewQuestions w)) stored ∧
       holds_session LocalScope BACKUP_KEY
         (after (saveCurrentSession interviewSettings interviewQuestions w)) stored).
Proof.
  intros now stamped w'. repeat split.
  - intros f. apply stamped_fields.
  - intros sc key Hne. by apply save_changes in Hne as [_ ?].
  - apply holds_stringified. by apply save_accepted.
  - apply holds_stringified. by apply save_accepted.
  - intros st qs Hf. clear now stamped w'.
    destruct w as [ss ls ck tk fs tr]. simpl in Hf. subst fs.
    unfold saveCurrentSession, currentSession. unfold_ops.
    destruct qs as [|q qs]; simpl; [|destruct (timestamp q =? 0); simpl];
      eexists _, (sessionWithTimestamp _ _);
      (split; [reflexivity|]); (split; [reflexivity|]); (split; [reflexivity|]);
      split; apply holds_stringified; simpl; apply lookup_insert_eq.
Qed.

End SaveProperties.

(* ===================================================================== *)
(** ** Properties of loadInterviewSession *)
(* ===================================================================== *)

Section LoadProperties.
Context `{JSON}.

Lemma load_result w s :
  finds w s →
  result (loadInterviewSession w) =
    Return (expiry_then_upgrade (clock w (ticks w)) (clock w (S (ticks w))) s).
Proof.
  intros Hfound. load_found Hfound;
    unfold expiry_then_upgrade, upgrade;
    (destruct (is_expired _ s); simpl; [done|]);
    (destruct (needs_upgrade s); simpl; [|done]).
  - cases_faults fs; simpl; split_quota; reflexivity.
  - reflexivity.
Qed.

Lemma load_expired_purges w s :
  finds w s →
  is_expired (clock w (ticks w)) s = true →
  sessionStorage (after (loadInterviewSession w)) !! SESSION_KEY = None ∧
  localStorage (after (loadInterviewSession w)) !! BACKUP_KEY = None.
Proof.
  intros Hfound Hexp. load_found Hfound; rewrite Hexp; simpl;
    by rewrite !lookup_delete_eq.
Qed.

Lemma load_upgrade_persists w s :
  finds w s →
  is_expired (clock w (ticks w)) s = false →
  needs_upgrade s = true →
  faults w = [] →
  let stored :=
    sessionWithTimestamp (clock w (S (S (ticks w))))
      (upgradedSession (clock w (S (ticks w))) s) in
  sessionStorage (after (loadInterviewSession w)) !! SESSION_KEY =
    Some (JSON_stringify stored) ∧
  localStorage (after (loadInterviewSession w)) !! BACKUP_KEY =
    Some (JSON_stringify stored).
Proof.
  intros Hfound Hexp Hup Hfs. load_found Hfound; rewrite Hexp, Hup; simpl;
    try (simpl in Hfs; subst fs; simpl);
    by rewrite !lookup_insert_eq.
Qed.

Lemma load_backup_heals w s :
  sessionStorage w !! SESSION_KEY = None →
  holds_session LocalScope BACKUP_KEY w s →
  faults w = [] →
  is_expired (clock w (ticks w)) s = false →
  needs_upgrade s = false →
  sessionStorage (after (loadInterviewSession w)) !! SESSION_KEY =
    Some (JSON_stringify s).
Proof.
  intros Hn Hb Hfs Hexp Hup.
  assert (Hfound : finds w s) by (right; done).
  load_found Hfound.
  - congruence.
  - rewrite Hexp, Hup. simpl. by rewrite lookup_insert_eq.
Qed.

Lemma load_primary_reads w s :
  holds_session SessionScope SESSION_KEY w s →
  reads LocalScope (trace (after (loadInterviewSession w))) =
    reads LocalScope (trace w).
Proof.
  intros Hp. assert (Hfound : finds w s) by (left; done).
  load_found Hfound.
  - destruct (is_expired _ s); simpl; [done|].
    destruct (needs_upgrade s); simpl; [|done].
    cases_faults fs; simpl; split_quota; reflexivity.
  - destruct Hp as (? & ? & _). simpl in *. congruence.
Qed.

Lemma load_never_raises w :
  ∃ found, result (loadInterviewSession w) = Return found.
Proof.
  unfold loadInterviewSession, try_catch.
  match goal with |- context [match ?b with _ => _ end] => destruct b as [[a|e] w'] end;
    simpl; eauto.
Qed.

Lemma is_expired_spec now s :
  is_expired now s = true ↔ now - lastUpdated_or_startTime s > 7200000.
Proof.
  unfold is_expired, SESSION_TIMEOUT. rewrite Z.gtb_gt. simpl. lia.
Qed.

Lemma is_expired_false now s :
  is_expired now s = false ↔ now - lastUpdated_or_startTime s ≤ 7200000.
Proof.
  rewrite <- not_true_iff_false, is_expired_spec. lia.
Qed.

(** The expiry check in terms of the instant [lastUpdated || startTime]
    that the code reads. *)
Lemma expiry_by_instant w s :
  finds w s →
  let now := clock w (ticks w) in
  let w' := after (loadInterviewSession w) in
  (result (loadInterviewSession w) = Return None ↔
   now - lastUpdated_or_startTime s > 7200000) ∧
  (∀ t, lastUpdated s = Some t → t ≠ 0 → lastUpdated_or_startTime s = t) ∧
  (lastUpdated s = None ∨ lastUpdated s = Some 0 →
   lastUpdated_or_startTime s = startTime s) ∧
  (now - lastUpdated_or_startTime s > 7200000 →
   sessionStorage w' !! SESSION_KEY = None ∧
   localStorage w' !! BACKUP_KEY = None) ∧
  (now - lastUpdated_or_startTime s ≤ 7200000 →
   result (loadInterviewSession w) =
     Return (Some (upgrade (clock w (S (ticks w))) s))).
Proof.
  intros Hfound now w'. rewrite (load_result w s Hfound).
  unfold expiry_then_upgrade. fold now.
  split; [|split; [|split; [|split]]].
  - rewrite <- is_expired_spec. destruct (is_expired now s); split; congruence.
  - intros t Ht Hne. unfold lastUpdated_or_startTime. rewrite Ht.
    by destruct (Z.eqb_spec t 0).
  - intros [Hl|Hl]; unfold lastUpdated_or_startTime; by rewrite Hl.
  - intros Hexp. apply is_expired_spec in Hexp.
    by apply (load_expired_purges w s).
  - intros Hexp. apply is_expired_false in Hexp. by rewrite Hexp.
Qed.

(** For a record that keeps [lastUpdated >= startTime], checked later than
    two hours after the epoch, the instant the code reads ages the record
    as its lastUpdated does, or as its startTime when lastUpdated is
    absent. *)
Lemma age_as_written_spec now s :
  (∀ t, lastUpdated s = Some t → startTime s ≤ t) →
  7200000 < now →
  (now - lastUpdated_or_startTime s > 7200000 ↔ age_as_written now s > 7200000).
Proof.
  intros Hinv Hnow. unfold lastUpdated_or_startTime, age_as_written.
  destruct (lastUpdated s) as [t|] eqn:Hl; [|done].
  destruct (Z.eqb_spec t 0) as [->|Hne]; [|done].
  specialize (Hinv 0 eq_refl). lia.
Qed.

(** C1. For every stored session record [s] (with [lastUpdated >=
    startTime], as the data model has it, and a clock past the first two
    hours of the epoch), loadInterviewSession answers null exactly when now
    minus lastUpdated, or now minus startTime when lastUpdated is absent,
    exceeds 7,200,000 ms. An expired record leaves neither the session key
    nor the backup key behind; a record that is not expired is returned
    (upgraded when its version asks for it). In particular a record with
    lastUpdated = now - 2h - 1ms is purged and not returned, and one with
    lastUpdated = now - 2h + 1ms is returned. *)
Theorem expiry_boundary w s :
  finds w s →
  (∀ t, lastUpdated s = Some t → startTime s ≤ t) →
  7200000 < clock w (ticks w) →
  let now := clock w (ticks w) in
  let w' := after (loadInterviewSession w) in
  (result (loadInterviewSession w) = Return None ↔
   age_as_written now s > 7200000) ∧
  (age_as_written now s > 7200000 →
   sessionStorage w' !! SESSION_KEY = None ∧
   localStorage w' !! BACKUP_KEY = None) ∧
  (age_as_written now s ≤ 7200000 →
   result (loadInterviewSession w) =
     Return (Some (upgrade (clock w (S (ticks w))) s))) ∧
  (lastUpdated s = Some (now - 7200000 - 1) →
   result (loadInterviewSession w) = Return None ∧
   sessionStorage w' !! SESSION_KEY = None ∧
   localStorage w' !! BACKUP_KEY = None) ∧
  (lastUpdated s = Some (now - 7200000 + 1) →
   result (loadInterviewSession w) =
     Return (Some (upgrade (clock w (S (ticks w))) s))).
Proof.
  intros Hfound Hinv Hnow now w'.
  destruct (expiry_by_instant w s Hfound) as (Hiff & _ & _ & Hpurge & Hkeep).
  fold now w' in Hiff, Hpurge, Hkeep.
  pose proof (age_as_written_spec now s Hinv Hnow) as Hage.
  assert (Hold : age_as_written now s > 7200000 →
                 result (loadInterviewSession w) = Return None ∧
                 sessionStorage w' !! SESSION_KEY = None ∧
                 localStorage w' !! BACKUP_KEY = None).
  { intros Hexp. apply Hage in Hexp. split; [by apply Hiff|by apply Hpurge]. }
  assert (Hnew : age_as_written now s ≤ 7200000 →
                 result (loadInterviewSession w) =
                   Return (Some (upgrade (clock w (S (ticks w))) s))).
  { intros Hok. apply Hkeep. lia. }
  split; [by rewrite Hiff|]. split; [intros Hexp; by apply Hold|].
  split; [exact Hnew|]. split.
  - intros Hl. apply Hold. unfold age_as_written. rewrite Hl. lia.
  - intros Hl. apply Hnew. unfold age_as_written. rewrite Hl. lia.
Qed.

(** C5 (amended). When loadInterviewSession finds a record it checks the
    expiry of the record as stored first: an expired record is cleared from
    both keys and load answers null. Only a record that is not expired is
    upgraded, when its version is absent or below '2.0', and returned. An
    upgraded record is passed to saveInterviewSession at once, so with an
    accepting browser both copies hold the returned record with the
    lastUpdated of that save: equal in every other field, and equal
    altogether when the two clock readings agree. *)
Theorem load_checks_expiry_then_upgrades w s :
  finds w s →
  let now := clock w (ticks w) in
  let upgraded_at := clock w (S (ticks w)) in
  let saved_at := clock w (S (S (ticks w))) in
  let w' := after (loadInterviewSession w) in
  result (loadInterviewSession w) = Return (expiry_then_upgrade now upgraded_at s) ∧
  (is_expired now s = true →
   result (loadInterviewSession w) = Return None ∧
   sessionStorage w' !! SESSION_KEY = None ∧
   localStorage w' !! BACKUP_KEY = None) ∧
  (is_expired now s = false →
   result (loadInterviewSession w) = Return (Some (upgrade upgraded_at s))) ∧
  (is_expired now s = false → needs_upgrade s = true → faults w = [] →
   let returned := upgradedSession upgraded_at s in
   let stored := sessionWithTimestamp saved_at returned in
   holds_session SessionScope SESSION_KEY w' stored ∧
   holds_session LocalScope BACKUP_KEY w' stored ∧
   (∀ f, f ≠ FlastUpdated → get_field f stored = get_field f returned) ∧
   (saved_at = upgraded_at → stored = returned)).
Proof.
  intros Hfound now upgraded_at saved_at w'.
  pose proof (load_result w s Hfound) as Hres. fold now upgraded_at in Hres.
  split; [done|]. split; [|split].
  - intros Hexp. rewrite Hres. unfold expiry_then_upgrade. rewrite Hexp.
    split; [done|]. by apply (load_expired_purges w s).
  - intros Hexp. rewrite Hres. unfold expiry_then_upgrade. by rewrite Hexp.
  - intros Hexp Hup Hfs returned stored.
    destruct (load_upgrade_persists w s Hfound Hexp Hup Hfs) as [Hs Hl].
    split; [by apply holds_stringified|]. split; [by apply holds_stringified|].
    split.
    + intros f Hf. destruct f; simpl; congruence.
    + intros Heq. unfold stored, returned. rewrite Heq. reflexivity.
Qed.

(** C2. If the session key is free and the backup key holds a valid
    record that is not expired, loadInterviewSession returns that record
    (upgraded when its version asks for it) and leaves a copy under the
    session key. A load that follows while that copy is not expired returns
    the copy and does not read localStorage. *)
Theorem backup_fallback w s :
  sessionStorage w !! SESSION_KEY = None →
  holds_session LocalScope BACKUP_KEY w s →
  is_expired (clock w (ticks w)) s = false →
  faults w = [] →
  let w1 := after (loadInterviewSession w) in
  let w2 := after (loadInterviewSession w1) in
  result (loadInterviewSession w) = Return (Some (upgrade (clock w (S (ticks w))) s)) ∧
  (needs_upgrade s = false → result (loadInterviewSession w) = Return (Some s)) ∧
  ∃ kept,
    holds_session SessionScope SESSION_KEY w1 kept ∧
    (needs_upgrade s = false → kept = s) ∧
    (∀ f, f ≠ FlastUpdated →
       get_field f kept = get_field f (upgrade (clock w (S (ticks w))) s)) ∧
    (is_expired (clock w1 (ticks w1)) kept = false →
     result (loadInterviewSession w1) = Return (Some kept) ∧
     reads LocalScope (trace w2) = reads LocalScope (trace w1)).
Proof.
  intros Hn Hb Hexp Hfs w1 w2.
  assert (Hfound : finds w s) by (right; done).
  pose proof (load_result w s Hfound) as Hres.
  unfold expiry_then_upgrade in Hres. rewrite Hexp in Hres.
  split; [done|]. split.
  { intros Hup. rewrite Hres. unfold upgrade. by rewrite Hup. }
  assert (Hsecond : ∀ kept,
    holds_session SessionScope SESSION_KEY w1 kept →
    needs_upgrade kept = false →
    is_expired (clock w1 (ticks w1)) kept = false →
    result (loadInterviewSession w1) = Return (Some kept) ∧
    reads LocalScope (trace w2) = reads LocalScope (trace w1)).
  { intros kept Hk Hcur Hfresh. split.
    - rewrite (load_result w1 kept) by (left; done).
      unfold expiry_then_upgrade, upgrade. by rewrite Hfresh, Hcur.
    - by apply (load_primary_reads w1 kept). }
  destruct (needs_upgrade s) eqn:Hup.
  - destruct (load_upgrade_persists w s Hfound Hexp Hup Hfs) as [Hs _].
    eexists. split; [apply holds_stringified, Hs|].
    split; [done|]. split.
    + intros f Hf. unfold upgrade. rewrite Hup. destruct f; simpl; congruence.
    + intros Hfresh. apply Hsecond; [apply holds_stringified, Hs|done|done].
  - pose proof (load_backup_heals w s Hn Hb Hfs Hexp Hup) as Hs.
    exists s. split; [apply holds_stringified, Hs|].
    split; [done|]. split.
    + intros f _. unfold upgrade. by rewrite Hup.
    + intros Hfresh. apply Hsecond; [apply holds_stringified, Hs|done|done].
Qed.

End LoadProperties.

(* ===================================================================== *)
(** ** Properties of the schema upgrade *)
(* ===================================================================== *)

Section UpgradeProperties.

Lemma upgraded_current now s : needs_upgrade (upgradedSession now s) = false.
Proof. reflexivity. Qed.

Lemma stamped_current now s : needs_upgrade (sessionWithTimestamp now s) = false.
Proof. reflexivity. Qed.

Lemma current_version_kept v : String.leb "2.0" v = true →
  (String.eqb v "" || String.ltb v "2.0") = false.
Proof.
  intros Hle.
  destruct (String.eqb_spec v "") as [->|_]; [discriminate|].
  rewrite orb_false_l. unfold String.ltb. rewrite String.compare_antisym.
  unfold String.leb in Hle.
  destruct (String.compare "2.0" v); simpl; congruence.
Qed.

(** C6. The schema upgrade is idempotent, also across clock readings, and
    a record whose version is at least '2.0' comes back unchanged. *)
Theorem upgrade_idempotent (now later : Z) (r : InterviewSession) :
  upgrade later (upgrade now r) = upgrade now r ∧
  (∀ v, version r = Some v → String.leb "2.0" v = true → upgrade now r = r).
Proof.
  split.
  - unfold upgrade at 2 3. destruct (needs_upgrade r) eqn:Hr.
    + unfold upgrade. by rewrite upgraded_current.
    + unfold upgrade. by rewrite Hr.
  - intros v Hv Hle. unfold upgrade, needs_upgrade. rewrite Hv.
    by rewrite current_version_kept.
Qed.

(** C4 (amended). The schema upgrade preserves every field other than
    version, lastUpdated, conversationQuality, coveredTopics and
    interviewMetrics; upgradeSessionFormat sets version to '2.0' and
    lastUpdated to its own clock reading. *)
Theorem upgrade_preserves_other_fields (now : Z) (r : InterviewSession) (f : field) :
  f ≠ Fversion → f ≠ FlastUpdated → f ≠ FconversationQuality →
  f ≠ FcoveredTopics → f ≠ FinterviewMetrics →
  get_field f (upgradedSession now r) = get_field f r ∧
  get_field f (upgrade now r) = get_field f r ∧
  get_field Fversion (upgradedSession now r) = Some (VString "2.0") ∧
  get_field FlastUpdated (upgradedSession now r) = Some (VNumber now).
Proof.
  intros. unfold upgrade. destruct (needs_upgrade r); destruct f; simpl; done.
Qed.

End UpgradeProperties.

(* ===================================================================== *)
(** ** Properties of getSessionStats *)
(* ===================================================================== *)

Section StatsProperties.
Context `{JSON}.



End StatsProperties.

(* ===================================================================== *)
(** ** Properties of the identity handlers *)
(* ===================================================================== *)

Section AuthProperties.

Lemma scoped_session_key userId : "interview_" +:+ userId +:+ "_session" ≠ SESSION_KEY.
Proof. discriminate. Qed.

Lemma scoped_backup_key userId : "interview_" +:+ userId +:+ "_backup" ≠ BACKUP_KEY.
Proof. discriminate. Qed.

Lemma check_reports_scoped_data userId w :
  result (checkInterviewState userId w) = Return true →
  userId ≠ "" ∧
  (truthy (sessionStorage w !! ("interview_" +:+ userId +:+ "_session")) = true ∨
   truthy (localStorage w !! ("interview_" +:+ userId +:+ "_backup")) = true).
Proof.
  destruct w as [ss ls ck tk fs tr]. unfold checkInterviewState.
  destruct (String.eqb_spec userId ""); [discriminate|].
  unfold try_catch, bind. simpl.
  destruct (truthy (ss !! _)) eqn:Hs; simpl; [auto|].
  intros [= Hl]. auto.
Qed.

Lemma check_without_scoped_data userId w :
  sessionStorage w !! ("interview_" +:+ userId +:+ "_session") = None →
  localStorage w !! ("interview_" +:+ userId +:+ "_backup") = None →
  result (checkInterviewState userId w) = Return false.
Proof.
  destruct w as [ss ls ck tk fs tr]. simpl. intros Hs Hl.
  unfold checkInterviewState. destruct (String.eqb userId ""); [done|].
  unfold try_catch, bind. simpl. rewrite Hs. simpl. by rewrite Hl.
Qed.

Context `{JSON}.

Lemma written_by_saves_keys w :
  written_by_saves w →
  (∀ key, key ≠ SESSION_KEY → sessionStorage w !! key = None) ∧
  (∀ key, key ≠ BACKUP_KEY → localStorage w !! key = None).
Proof.
  induction 1 as [w Hs Hl|w s Hw [IHs IHl]].
  - rewrite Hs, Hl. split; intros; apply lookup_empty.
  - split; intros key Hkey.
    + destruct (decide (sessionStorage (after (saveInterviewSession s w)) !! key
                        = sessionStorage w !! key)) as [->|Hne]; [auto|].
      apply (save_changes s w SessionScope key) in Hne as [[[_ ?]|[? _]] _]; done.
    + destruct (decide (localStorage (after (saveInterviewSession s w)) !! key
                        = localStorage w !! key)) as [->|Hne]; [auto|].
      apply (save_changes s w LocalScope key) in Hne as [[[? _]|[_ ?]] _]; done.
Qed.

(** C10. checkInterviewState answers true only when the user's scoped
    session key or scoped backup key holds a non-empty string;
    saveInterviewSession changes no entry other than 'interviewSession' in
    sessionStorage and 'interviewSessionBackup' in localStorage; so on a
    page whose storage holds only what saves wrote, checkInterviewState
    answers false for every user. *)
Theorem saved_sessions_invisible_to_check :
  (∀ userId w,
     result (checkInterviewState userId w) = Return true →
     truthy (sessionStorage w !! ("interview_" +:+ userId +:+ "_session")) = true ∨
     truthy (localStorage w !! ("interview_" +:+ userId +:+ "_backup")) = true) ∧
  (∀ s w sc key,
     store_of sc (after (saveInterviewSession s w)) !! key ≠ store_of sc w !! key →
     sc = SessionScope ∧ key = "interviewSession" ∨
     sc = LocalScope ∧ key = "interviewSessionBackup") ∧
  (∀ w, written_by_saves w →
        ∀ userId, result (checkInterviewState userId w) = Return false).
Proof.
  split; [|split].
  - intros userId w Hr. by apply check_reports_scoped_data in Hr as [_ ?].
  - intros s w sc key Hne. by apply save_changes in Hne as [? _].
  - intros w Hw userId. apply written_by_saves_keys in Hw as [Hs Hl].
    apply check_without_scoped_data.
    + apply Hs, scoped_session_key.
    + apply Hl, scoped_backup_key.
Qed.

Lemma load_nothing w :
  sessionStorage w !! SESSION_KEY = None →
  localStorage w !! BACKUP_KEY = None →
  result (loadInterviewSession w) = Return None.
Proof.
  destruct w as [ss ls ck tk fs tr]. simpl. intros Hs Hl.
  unfold_ops. simpl. rewrite Hs. simpl. by rewrite Hl.
Qed.

Lemma purged_key (m : gmap string string) userId key :
  key ∈ interview_keys userId →
  delete "interviewSessionBackup" (delete "interviewSession"
    (delete ("interview_" +:+ userId +:+ "_backup")
      (delete ("interview_" +:+ userId +:+ "_session") m))) !! key = None.
Proof.
  unfold interview_keys. rewrite !elem_of_cons, elem_of_nil.
  rewrite !lookup_delete_None. intros [->|[->|[->|[->|[]]]]]; auto.
Qed.

Lemma marker_is_no_interview_key userId key :
  key ∈ interview_keys userId → "currentUserId" ≠ key.
Proof.
  unfold interview_keys. rewrite !elem_of_cons, elem_of_nil.
  intros [->|[->|[->|[->|[]]]]]; discriminate.
Qed.

(** C3. When [A] is the remembered identity and the SIGNED_IN handler runs
    for another identity [B], the keys interview_A_session,
    interview_A_backup, interviewSession and interviewSessionBackup are
    gone from both storage areas, so that load finds nothing and
    checkInterviewState answers false for [A]; and with a browser that
    accepts the write, [B] is the remembered identity. *)
Theorem identity_switch_purges (A B : string) (w : World) :
  localStorage w !! "currentUserId" = Some A →
  A ≠ "" → B ≠ A →
  let w' := after (onAuthStateChange SIGNED_IN (Some B) w) in
  (∀ sc key, key ∈ interview_keys A → store_of sc w' !! key = None) ∧
  result (loadInterviewSession w') = Return None ∧
  result (checkInterviewState A w') = Return false ∧
  (faults w = [] →
   result (onAuthStateChange SIGNED_IN (Some B) w) = Return tt ∧
   localStorage w' !! "currentUserId" = Some B).
Proof.
  intros Hm HA HB w'.
  assert (Hstores :
    (∀ key, key ∈ interview_keys A → sessionStorage w' !! key = None) ∧
    (∀ key, key ∈ interview_keys A → localStorage w' !! key = None) ∧
    (faults w = [] →
     result (onAuthStateChange SIGNED_IN (Some B) w) = Return tt ∧
     localStorage w' !! "currentUserId" = Some B)).
  { subst w'. destruct w as [ss ls ck tk fs tr]. simpl in Hm.
    run. rewrite Hm.
    destruct (String.eqb_spec A ""); [done|].
    destruct (String.eqb_spec A B); [done|]. run.
    split; [|split].
    - intros key Hkey. destruct fs as [|[e|] fs]; run; exact (purged_key ss A key Hkey).
    - intros key Hkey.
      pose proof (marker_is_no_interview_key A key Hkey) as Hmarker.
      destruct fs as [|[e|] fs]; run;
        [rewrite lookup_insert_ne by exact Hmarker| |
         rewrite lookup_insert_ne by exact Hmarker];
        exact (purged_key ls A key Hkey).
    - intros ->. run. split; [done|]. by rewrite lookup_insert_eq. }
  destruct Hstores as (Hs & Hl & Hrec).
  assert (Hin1 : "interview_" +:+ A +:+ "_session" ∈ interview_keys A)
    by apply list_elem_of_here.
  assert (Hin2 : "interview_" +:+ A +:+ "_backup" ∈ interview_keys A)
    by (apply list_elem_of_further, list_elem_of_here).
  assert (Hin3 : SESSION_KEY ∈ interview_keys A)
    by (do 2 apply list_elem_of_further; apply list_elem_of_here).
  assert (Hin4 : BACKUP_KEY ∈ interview_keys A)
    by (do 3 apply list_elem_of_further; apply list_elem_of_here).
  split; [|split; [|split]].
  - intros [] key Hkey; simpl; auto.
  - apply load_nothing; auto.
  - apply check_without_scoped_data; auto.
  - done.
Qed.

End AuthProperties.

(* ===================================================================== *)
(** ** The properties on concrete pages *)
(* ===================================================================== *)

Section Witnesses.
Import Examples.
#[local] Existing Instance Codec.json.

Lemma finds_primary (s : InterviewSession) local_area now rejections :
  finds (page (primary_of s) local_area now rejections) s.
Proof. left. apply holds_stringified. apply lookup_singleton_eq. Qed.

Lemma holds_backup (s : InterviewSession) :
  holds_session LocalScope BACKUP_KEY (page_with_backup s) s.
Proof. apply holds_stringified. apply lookup_singleton_eq. Qed.

(** C1 on a page: one millisecond past the timeout, and one short of it. *)
Lemma expiry_boundary_witness :
  finds (page_with just_expired) just_expired ∧
  finds (page_with just_alive) just_alive ∧
  startTime just_expired ≤ noon - 7200000 - 1 ∧
  7200000 < noon ∧
  result (loadInterviewSession (page_with just_expired)) = Return None ∧
  sessionStorage (after (loadInterviewSession (page_with just_expired)))
    !! SESSION_KEY = None ∧
  localStorage (after (loadInterviewSession (page_with just_expired)))
    !! BACKUP_KEY = None ∧
  result (loadInterviewSession (page_with just_alive)) = Return (Some just_alive).
Proof.
  pose proof (finds_primary just_expired (backup_of just_expired) noon []) as Hold.
  pose proof (finds_primary just_alive (backup_of just_alive) noon []) as Hnew.
  assert (Hnoon : 7200000 < noon) by (vm_compute; reflexivity).
  assert (Hstart : startTime just_expired ≤ noon - 7200000 - 1)
    by (vm_compute; discriminate).
  assert (Hinv : ∀ t, lastUpdated just_expired = Some t → startTime just_expired ≤ t).
  { intros t [= <-]. exact Hstart. }
  assert (Hinv' : ∀ t, lastUpdated just_alive = Some t → startTime just_alive ≤ t).
  { intros t [= <-]. vm_compute. discriminate. }
  destruct (expiry_boundary (page_with just_expired) just_expired Hold Hinv Hnoon)
    as (_ & _ & _ & Hpurged & _).
  destruct (expiry_boundary (page_with just_alive) just_alive Hnew Hinv' Hnoon)
    as (_ & _ & _ & _ & Hkept).
  destruct (Hpurged eq_refl) as (Hnone & Hs & Hl).
  split; [exact Hold|]. split; [exact Hnew|].
  split; [exact Hstart|]. split; [exact Hnoon|].
  split; [exact Hnone|]. split; [exact Hs|]. split; [exact Hl|].
  exact (Hkept eq_refl).
Defined.

(** C2 on a page that holds a recent session under the backup key only. *)
Lemma backup_fallback_witness :
  sessionStorage (page_with_backup recent) !! SESSION_KEY = None ∧
  holds_session LocalScope BACKUP_KEY (page_with_backup recent) recent ∧
  result (loadInterviewSession (page_with_backup recent)) = Return (Some recent) ∧
  holds_session SessionScope SESSION_KEY
    (after (loadInterviewSession (page_with_backup recent))) recent ∧
  result (loadInterviewSession
            (after (loadInterviewSession (page_with_backup recent))))
    = Return (Some recent) ∧
  reads LocalScope
    (trace (after (loadInterviewSession
                     (after (loadInterviewSession (page_with_backup recent))))))
    = reads LocalScope
        (trace (after (loadInterviewSession (page_with_backup recent)))).
Proof.
  assert (Hn : sessionStorage (page_with_backup recent) !! SESSION_KEY = None)
    by apply lookup_empty.
  pose proof (holds_backup recent) as Hb.
  assert (Hexp : is_expired (clock (page_with_backup recent)
                               (ticks (page_with_backup recent))) recent = false)
    by (vm_compute; reflexivity).
  destruct (backup_fallback (page_with_backup recent) recent Hn Hb Hexp eq_refl)
    as (_ & Hsame & kept & Hkept & Heq & _ & Hsecond).
  assert (Hcur : needs_upgrade recent = false) by reflexivity.
  rewrite (Heq Hcur) in Hkept, Hsecond.
  split; [exact Hn|]. split; [exact Hb|].
  split; [exact (Hsame Hcur)|]. split; [exact Hkept|].
  apply Hsecond. vm_compute. reflexivity.
Defined.

(** C3 on a page: bob signs in after alice. *)
Lemma identity_switch_purges_witness :
  localStorage alice_page !! "currentUserId" = Some "alice" ∧
  result (loadInterviewSession alice_page) = Return (Some recent) ∧
  result (checkInterviewState "alice" alice_page) = Return true ∧
  (∀ sc key, key ∈ interview_keys "alice" → store_of sc bob_page !! key = None) ∧
  result (loadInterviewSession bob_page) = Return None ∧
  result (checkInterviewState "alice" bob_page) = Return false ∧
  localStorage bob_page !! "currentUserId" = Some "bob".
Proof.
  assert (Hm : localStorage alice_page !! "currentUserId" = Some "alice")
    by apply lookup_insert_eq.
  assert (Hne : "alice" ≠ "") by discriminate.
  assert (Hdiff : "bob" ≠ "alice") by discriminate.
  destruct (identity_switch_purges "alice" "bob" alice_page Hm Hne Hdiff)
    as (Hkeys & Hload & Hcheck & Hmark).
  split; [exact Hm|].
  split; [vm_compute; reflexivity|]. split; [vm_compute; reflexivity|].
  split; [exact Hkeys|]. split; [exact Hload|]. split; [exact Hcheck|].
  exact (proj2 (Hmark eq_refl)).
Defined.

(** C4, counterexample: a record without version that already has a
    quality rating and a lastUpdated loses both values in the upgrade. *)
Lemma upgrade_overwrites_present_fields :
  get_field FconversationQuality legacy_recent = Some (VString "excellent") ∧
  get_field FconversationQuality (upgrade noon legacy_recent)
    = Some (VString "moderate") ∧
  get_field FlastUpdated legacy_recent = Some (VNumber (noon - 1000)) ∧
  get_field FlastUpdated (upgrade noon legacy_recent) = Some (VNumber noon) ∧
  ¬ (∀ f v, get_field f legacy_recent = Some v →
            get_field f (upgradedSession noon legacy_recent) = Some v).
Proof.
  repeat split.
  intros Hall. specialize (Hall FlastUpdated _ eq_refl). discriminate.
Qed.

(** C4 on the questions of a legacy record. *)
Lemma upgrade_preserves_other_fields_witness :
  Fquestions ≠ Fversion ∧
  get_field Fquestions (upgradedSession noon legacy_recent)
    = get_field Fquestions legacy_recent ∧
  get_field Fquestions (upgrade noon legacy_recent)
    = get_field Fquestions legacy_recent ∧
  get_field Fversion (upgradedSession noon legacy_recent) = Some (VString "2.0") ∧
  get_field FlastUpdated (upgradedSession noon legacy_recent) = Some (VNumber noon).
Proof.
  split; [discriminate|].
  apply (upgrade_preserves_other_fields noon legacy_recent Fquestions);
    discriminate.
Defined.

(** C5, counterexample: for a record without version saved three hours
    ago, upgrading first would refresh lastUpdated and pass the expiry
    check; load answers null. *)
Lemma load_does_not_upgrade_first :
  finds (page_with legacy_old) legacy_old ∧
  result (loadInterviewSession (page_with legacy_old)) = Return None ∧
  upgrade_then_expiry noon noon legacy_old = Some (upgradedSession noon legacy_old) ∧
  result (loadInterviewSession (page_with legacy_old)) ≠
    Return (upgrade_then_expiry
              (clock (page_with legacy_old) (ticks (page_with legacy_old)))
              (clock (page_with legacy_old) (S (ticks (page_with legacy_old))))
              legacy_old).
Proof.
  split; [exact (finds_primary legacy_old (backup_of legacy_old) noon [])|].
  split; [vm_compute; reflexivity|]. split; [vm_compute; reflexivity|].
  vm_compute. discriminate.
Qed.

(** C5 on two legacy records, one saved three hours ago and one saved a
    second ago. *)
Lemma load_checks_expiry_then_upgrades_witness :
  finds (page_with legacy_old) legacy_old ∧
  finds (page_with legacy_recent) legacy_recent ∧
  result (loadInterviewSession (page_with legacy_old)) = Return None ∧
  sessionStorage (after (loadInterviewSession (page_with legacy_old)))
    !! SESSION_KEY = None ∧
  localStorage (after (loadInterviewSession (page_with legacy_old)))
    !! BACKUP_KEY = None ∧
  result (loadInterviewSession (page_with legacy_recent))
    = Return (Some (upgradedSession noon legacy_recent)) ∧
  holds_session SessionScope SESSION_KEY
    (after (loadInterviewSession (page_with legacy_recent)))
    (sessionWithTimestamp noon (upgradedSession noon legacy_recent)) ∧
  holds_session LocalScope BACKUP_KEY
    (after (loadInterviewSession (page_with legacy_recent)))
    (sessionWithTimestamp noon (upgradedSession noon legacy_recent)) ∧
  sessionWithTimestamp noon (upgradedSession noon legacy_recent)
    = upgradedSession noon legacy_recent.
Proof.
  pose proof (finds_primary legacy_old (backup_of legacy_old) noon []) as Hold.
  pose proof (finds_primary legacy_recent (backup_of legacy_recent) noon [])
    as Hnew.
  destruct (load_checks_expiry_then_upgrades (page_with legacy_old) legacy_old Hold)
    as (_ & Hexpired & _).
  destruct (load_checks_expiry_then_upgrades (page_with legacy_recent)
              legacy_recent Hnew)
    as (_ & _ & Hfresh & Hpersist).
  assert (Hgone : is_expired noon legacy_old = true) by (vm_compute; reflexivity).
  assert (Hlive : is_expired noon legacy_recent = false)
    by (vm_compute; reflexivity).
  destruct (Hexpired Hgone) as (Hnone & Hs & Hl).
  destruct (Hpersist Hlive eq_refl eq_refl) as (Hps & Hpl & _ & Hsame).
  split; [exact Hold|]. split; [exact Hnew|].
  split; [exact Hnone|]. split; [exact Hs|]. split; [exact Hl|].
  split; [exact (Hfresh Hlive)|]. split; [exact Hps|]. split; [exact Hpl|].
  exact (Hsame eq_refl).
Defined.

(** C6 on a legacy record and on a current one. *)
Lemma upgrade_idempotent_witness :
  String.leb "2.0" "2.0" = true ∧
  upgrade (noon + 5) (upgrade noon legacy_recent) = upgrade noon legacy_recent ∧
  upgrade noon recent = recent.
Proof.
  split; [reflexivity|]. split.
  - apply (upgrade_idempotent noon (noon + 5) legacy_recent).
  - apply (proj2 (upgrade_idempotent noon noon recent) "2.0"); reflexivity.
Defined.

(** C7 on a full page and on a page that fails for another reason. *)
Lemma save_never_raises_witness :
  faults full_page = [Some (DOMException 22)] ∧
  result (saveInterviewSession recent full_page) = Return tt ∧
  alerts (trace (after (saveInterviewSession recent full_page))) = [QUOTA_MESSAGE] ∧
  result (saveInterviewSession recent locked_page) = Return tt ∧
  alerts (trace (after (saveInterviewSession recent locked_page))) = [].
Proof.
  destruct (save_never_raises recent full_page) as (Hret & Halert & _).
  destruct (save_never_raises recent locked_page) as (Hret' & _ & Honly).
  split; [reflexivity|].
  split; [exact Hret|]. split; [apply (Halert []); left; reflexivity|].
  split; [exact Hret'|].
  destruct (decide (alerts (trace (after (saveInterviewSession recent locked_page)))
                    = alerts (trace locked_page))) as [Heq|Hne]; [exact Heq|].
  apply Honly in Hne. vm_compute in Hne. discriminate.
Defined.



(** C9 on the session AppContent builds. *)
Lemma save_stamps_version_and_time_witness :
  faults empty_page = [] ∧
  ∃ built stored,
    result (currentSession it_interview two_answers empty_page) = Return built ∧
    version built = Some "3.0" ∧
    version stored = Some "2.0" ∧
    holds_session SessionScope SESSION_KEY
      (after (saveCurrentSession it_interview two_answers empty_page)) stored ∧
    holds_session LocalScope BACKUP_KEY
      (after (saveCurrentSession it_interview two_answers empty_page)) stored.
Proof.
  destruct (save_stamps_version_and_time recent empty_page)
    as (_ & _ & _ & Happ).
  split; [reflexivity|].
  exact (Happ it_interview two_answers eq_refl).
Defined.

(** C10 on the page left by one save. *)
Lemma saved_sessions_invisible_to_check_witness :
  written_by_saves saved_page ∧
  sessionStorage saved_page !! SESSION_KEY ≠ None ∧
  result (checkInterviewState "alice" saved_page) = Return false.
Proof.
  assert (Hw : written_by_saves saved_page).
  { apply written_save. by apply written_nothing. }
  split; [exact Hw|]. split; [vm_compute; discriminate|].
  destruct saved_sessions_invisible_to_check as (_ & _ & Hcheck).
  exact (Hcheck saved_page Hw "alice").
Defined.

End Witnesses.

(* ===================================================================== *)
(** ** Recovery, clearing and the edges of load and save *)
(* ===================================================================== *)

Ltac unfold_recover :=
  unfold recoverSession, loadInterviewSession, saveInterviewSession,
    saveInterviewSession_try, saveInterviewSession_catch,
    clearInterviewSession, upgradeSessionFormat, parse_if_truthy,
    try_catch, bind in *.

Section RecoveryProperties.
Context `{JSON}.

Lemma recover_valid_backup w text s :
  localStorage w !! BACKUP_KEY = Some text →
  text ≠ "" →
  JSON_parse text = Some (Some s) →
  faults w = [] →
  result (recoverSession w) = Return (Some s) ∧
  sessionStorage (after (recoverSession w)) !! SESSION_KEY = Some text ∧
  localStorage (after (recoverSession w)) = localStorage w.
Proof.
  intros Hl Hne Hp Hf. destruct w as [ss ls ck tk fs tr]. simpl in *. subst fs.
  unfold_recover. simpl. rewrite Hl.
  destruct (String.eqb_spec text ""); [done|]. rewrite Hp. simpl.
  by rewrite lookup_insert_eq.
Qed.

(** X1. recoverSession returns the session the backup text parses to and
    writes that very text under the session key, leaving localStorage as it
    was. It neither checks the age of the record nor upgrades it: it
    returns an expired record for which loadInterviewSession answers
    null. *)
Theorem recover_restores_verbatim w text s :
  localStorage w !! BACKUP_KEY = Some text →
  text ≠ "" →
  JSON_parse text = Some (Some s) →
  faults w = [] →
  result (recoverSession w) = Return (Some s) ∧
  sessionStorage (after (recoverSession w)) !! SESSION_KEY = Some text ∧
  localStorage (after (recoverSession w)) = localStorage w ∧
  (sessionStorage w !! SESSION_KEY = None →
   is_expired (clock w (ticks w)) s = true →
   result (loadInterviewSession w) = Return None).
Proof.
  intros Hl Hne Hp Hf.
  destruct (recover_valid_backup w text s Hl Hne Hp Hf) as (Hres & Hs & Hb).
  split; [exact Hres|]. split; [exact Hs|]. split; [exact Hb|].
  intros Hn Hexp. rewrite (load_result w s).
  - unfold expiry_then_upgrade. by rewrite Hexp.
  - right. split; [done|]. split; [by exists text|done].
Qed.

(** X2. recoverSession never raises and never changes localStorage; the
    only entry of sessionStorage it can change is the session key, to the
    text of the backup. With no backup, an empty one, or one that is not
    JSON it answers null and changes nothing: a corrupt backup stays. *)
Theorem recover_keeps_backup w :
  (∃ answer, result (recoverSession w) = Return answer) ∧
  localStorage (after (recoverSession w)) = localStorage w ∧
  (∀ key,
     sessionStorage (after (recoverSession w)) !! key ≠ sessionStorage w !! key →
     key = SESSION_KEY ∧
     sessionStorage (after (recoverSession w)) !! key = localStorage w !! BACKUP_KEY) ∧
  (localStorage w !! BACKUP_KEY = None ∨
   localStorage w !! BACKUP_KEY = Some "" ∨
   (∃ text, localStorage w !! BACKUP_KEY = Some text ∧ JSON_parse text = None) →
   result (recoverSession w) = Return None ∧
   sessionStorage (after (recoverSession w)) = sessionStorage w).
Proof.
  destruct w as [ss ls ck tk fs tr]. unfold_recover. simpl.
  destruct (ls !! BACKUP_KEY) as [text|] eqn:Hl; simpl.
  - destruct (String.eqb_spec text "") as [->|Hne]; simpl.
    + repeat split; eauto; try congruence.
    + destruct (JSON_parse text) as [value|] eqn:Hp; simpl.
      * destruct fs as [|[e|] fs]; simpl; (split; [eauto|]); (split; [done|]);
          (split; [|intros [?|[?|(? & ? & ?)]]; congruence]);
          intros key Hkey; try congruence;
          (destruct (decide (SESSION_KEY = key)) as [<-|Hk];
           [by rewrite lookup_insert_eq
           |rewrite lookup_insert_ne in Hkey by done; congruence]).
      * repeat split; eauto; congruence.
  - repeat split; eauto; congruence.
Qed.

(** X3. clearInterviewSession never raises and consumes no write; after it
    loadInterviewSession and recoverSession answer null; every entry other
    than the session key and the backup key is kept. *)
Theorem clear_leaves_nothing_to_load w :
  let w' := after (clearInterviewSession w) in
  result (clearInterviewSession w) = Return tt ∧
  result (loadInterviewSession w') = Return None ∧
  result (recoverSession w') = Return None ∧
  (∀ key, key ≠ SESSION_KEY → sessionStorage w' !! key = sessionStorage w !! key) ∧
  (∀ key, key ≠ BACKUP_KEY → localStorage w' !! key = localStorage w !! key) ∧
  faults w' = faults w.
Proof.
  destruct w as [ss ls ck tk fs tr]. unfold_recover. simpl.
  rewrite !lookup_delete_eq. simpl. rewrite !lookup_delete_eq. simpl.
  repeat split; intros key Hkey; by rewrite lookup_delete_ne.
Qed.

End RecoveryProperties.

Section LoadEdgeProperties.
Context `{JSON}.

(** X4. When the text under the session key is not JSON, or that key is
    free or empty and the text under the backup key is not JSON,
    loadInterviewSession answers null and removes both entries. A corrupt
    session entry thus takes an intact backup with it. *)
Theorem load_discards_corrupt_data w text :
  text ≠ "" →
  JSON_parse text = None →
  sessionStorage w !! SESSION_KEY = Some text ∨
  ((sessionStorage w !! SESSION_KEY = None ∨
    sessionStorage w !! SESSION_KEY = Some "") ∧
   localStorage w !! BACKUP_KEY = Some text) →
  result (loadInterviewSession w) = Return None ∧
  sessionStorage (after (loadInterviewSession w)) !! SESSION_KEY = None ∧
  localStorage (after (loadInterviewSession w)) !! BACKUP_KEY = None.
Proof.
  intros Hne Hp Hw. destruct w as [ss ls ck tk fs tr]. simpl in *.
  unfold_recover. simpl.
  destruct Hw as [Hs|[[Hs|Hs] Hl]]; rewrite Hs; simpl; try rewrite Hl;
    (destruct (String.eqb_spec text ""); [done|]); rewrite Hp; simpl;
    by rewrite !lookup_delete_eq.
Qed.

(** X5. When the session key is free, the backup holds a session and the
    browser rejects the write that would copy it back, loadInterviewSession
    answers null and removes the backup as well. *)
Theorem load_loses_backup_when_write_back_fails w s e rest :
  sessionStorage w !! SESSION_KEY = None →
  holds_session LocalScope BACKUP_KEY w s →
  faults w = Some e :: rest →
  result (loadInterviewSession w) = Return None ∧
  sessionStorage (after (loadInterviewSession w)) !! SESSION_KEY = None ∧
  localStorage (after (loadInterviewSession w)) !! BACKUP_KEY = None.
Proof.
  intros Hs (text & Hl & Hne & Hp) Hf.
  destruct w as [ss ls ck tk fs tr]. simpl in *. subst fs.
  unfold_recover. simpl. rewrite Hs. simpl. rewrite Hl.
  destruct (String.eqb_spec text ""); [done|]. rewrite Hp. simpl.
  by rewrite !lookup_delete_eq.
Qed.

(** X6. loadInterviewSession writes and removes nothing when it returns a
    current-format, unexpired record found under the session key, and
    nothing when both keys are free: both storage areas, the pending
    rejections and the recorded mutations are as before. *)
Theorem load_only_reads_when_nothing_changes w :
  (∀ s, holds_session SessionScope SESSION_KEY w s →
        is_expired (clock w (ticks w)) s = false →
        needs_upgrade s = false →
        result (loadInterviewSession w) = Return (Some s) ∧
        sessionStorage (after (loadInterviewSession w)) = sessionStorage w ∧
        localStorage (after (loadInterviewSession w)) = localStorage w ∧
        faults (after (loadInterviewSession w)) = faults w ∧
        mutations (trace (after (loadInterviewSession w))) = mutations (trace w)) ∧
  (sessionStorage w !! SESSION_KEY = None →
   localStorage w !! BACKUP_KEY = None →
   result (loadInterviewSession w) = Return None ∧
   sessionStorage (after (loadInterviewSession w)) = sessionStorage w ∧
   localStorage (after (loadInterviewSession w)) = localStorage w ∧
   faults (after (loadInterviewSession w)) = faults w ∧
   mutations (trace (after (loadInterviewSession w))) = mutations (trace w)).
Proof.
  destruct w as [ss ls ck tk fs tr]. simpl. split.
  - intros s (text & Hl & Hne & Hp) Hexp Hup. simpl in *.
    unfold_recover. simpl. rewrite Hl.
    destruct (String.eqb_spec text ""); [done|]. rewrite Hp. simpl.
    rewrite Hexp, Hup. done.
  - intros Hs Hl. unfold_recover. simpl. rewrite Hs. simpl. rewrite Hl. done.
Qed.

(** X7. After an accepted save of [s], a load on a page with the same
    backup, and the same session entry or none (a new tab), returns [s]
    stamped with version '2.0' and the time of the save, as long as that
    record is not expired; recoverSession returns the same. The stamped
    record agrees with [s] on every field but version and lastUpdated. *)
Theorem save_then_load_round_trip s w w2 :
  faults w = [] →
  let stamped := sessionWithTimestamp (clock w (ticks w)) s in
  let w1 := after (saveInterviewSession s w) in
  localStorage w2 !! BACKUP_KEY = localStorage w1 !! BACKUP_KEY →
  sessionStorage w2 !! SESSION_KEY = sessionStorage w1 !! SESSION_KEY ∨
  sessionStorage w2 !! SESSION_KEY = None →
  faults w2 = [] →
  is_expired (clock w2 (ticks w2)) stamped = false →
  result (loadInterviewSession w2) = Return (Some stamped) ∧
  result (recoverSession w2) = Return (Some stamped) ∧
  (∀ f, f ≠ Fversion → f ≠ FlastUpdated → get_field f stamped = get_field f s).
Proof.
  intros Hf stamped w1 Hl Hs Hf2 Hexp.
  destruct (save_accepted s w Hf) as [Hs1 Hl1]. fold stamped w1 in Hs1, Hl1.
  rewrite Hl1 in Hl. rewrite Hs1 in Hs.
  assert (Hfound : finds w2 stamped).
  { destruct Hs as [Hs|Hs].
    - left. by apply holds_stringified.
    - right. split; [done|]. split; [by apply holds_stringified|done]. }
  split; [|split].
  - rewrite (load_result w2 stamped Hfound). unfold expiry_then_upgrade, upgrade.
    by rewrite Hexp.
  - apply (recover_valid_backup w2 (JSON_stringify stamped) stamped);
      [done|apply JSON_stringify_truthy|apply JSON_parse_stringify|done].
  - intros f. apply stamped_fields.
Qed.

(** X8. A save whose first write is rejected does not attempt the second:
    neither storage area changes and one rejection is consumed. When the
    second write is rejected the session entry holds the new record and the
    backup stays as it was; nothing is rolled back. *)
Theorem save_stops_at_first_rejected_write s w e rest :
  let text := JSON_stringify (sessionWithTimestamp (clock w (ticks w)) s) in
  let w' := after (saveInterviewSession s w) in
  (faults w = Some e :: rest →
   sessionStorage w' = sessionStorage w ∧
   localStorage w' = localStorage w ∧
   faults w' = rest) ∧
  (faults w = None :: Some e :: rest →
   sessionStorage w' = <[SESSION_KEY := text]> (sessionStorage w) ∧
   localStorage w' = localStorage w ∧
   faults w' = rest).
Proof.
  destruct w as [ss ls ck tk fs tr]. simpl.
  split; intros ->; unfold_recover; simpl; destruct (is_quota_exceeded e); done.
Qed.

(** X9. Whatever the page holds, loadInterviewSession never raises, and a
    session it returns never needs an upgrade: its version is present, not
    empty and not below '2.0'. *)
Theorem load_returns_current_format w :
  (∃ answer, result (loadInterviewSession w) = Return answer) ∧
  (∀ s, result (loadInterviewSession w) = Return (Some s) →
        needs_upgrade s = false).
Proof.
  split; [apply load_never_raises|].
  destruct w as [ss ls ck tk fs tr]. unfold_recover. simpl.
  intros s.
  destruct (ss !! SESSION_KEY) as [text|]; simpl;
    [destruct (String.eqb text ""); simpl;
     [|destruct (JSON_parse text) as [[found|]|]; simpl]|];
    try (destruct (ls !! BACKUP_KEY) as [text'|]; simpl;
         [destruct (String.eqb text' ""); simpl;
          [|destruct (JSON_parse text') as [[found|]|]; simpl;
            [destruct fs as [|[e0|] fs]; simpl|..]]|]);
    try discriminate;
    try discriminate;
    (destruct (is_expired _ found); simpl; [discriminate|]);
    (destruct (needs_upgrade found) eqn:Hup; simpl;
     [|intros [= <-]; exact Hup]);
    try cases_faults fs; simpl; split_quota; intros [= <-]; reflexivity.
Qed.

End LoadEdgeProperties.

(* ===================================================================== *)
(** ** The edges of getSessionStats *)
(* ===================================================================== *)

Section StatsEdgeProperties.
Context `{JSON}.

(** X10. getSessionStats is not read-only: for an expired record it
    returns the zeroed result and removes both copies. *)
Theorem stats_purge_expired_session w s :
  finds w s →
  is_expired (clock w (ticks w)) s = true →
  result (getSessionStats w) = Return no_session_stats ∧
  sessionStorage (after (getSessionStats w)) !! SESSION_KEY = None ∧
  localStorage (after (getSessionStats w)) !! BACKUP_KEY = None.
Proof.
  intros Hfound Hexp.
  pose proof (load_result w s Hfound) as Hres.
  destruct (load_expired_purges w s Hfound Hexp) as [Hs Hl].
  unfold expiry_then_upgrade in Hres. rewrite Hexp in Hres.
  unfold getSessionStats, bind.
  destruct (loadInterviewSession w) as [o w1]. simpl in *. subst o. done.
Qed.

(** X11. The completion rate is not clamped. With a configured question
    count of 0 it is NaN when nothing is answered and Infinity otherwise;
    with more answers than configured questions it exceeds 100. *)
Theorem stats_rate_is_unbounded w s :
  result (loadInterviewSession w) = Return (Some s) →
  let answered := Z.of_nat (length (questions s)) in
  let configured := Model.questionCount (settings s) in
  ∃ stats,
    result (getSessionStats w) = Return stats ∧
    (configured = 0 → answered = 0 → Stats.completionRate stats = NaN) ∧
    (configured = 0 → 0 < answered → Stats.completionRate stats = PosInfinity) ∧
    (0 < configured → configured < answered →
     ∃ rate, Stats.completionRate stats = Finite rate ∧ (100 < rate)%Q).
Proof.
  intros Hres answered configured.
  unfold getSessionStats, bind.
  destruct (loadInterviewSession w) as [o w1]. simpl in Hres. subst o. simpl.
  eexists. split; [reflexivity|]. simpl. fold answered configured.
  split; [|split].
  - intros -> ->. reflexivity.
  - intros -> Hpos. unfold js_div. simpl.
    destruct (Z.eqb_spec answered 0); [lia|].
    destruct (Z.ltb_spec 0 answered); [reflexivity|lia].
  - intros Hc Hlt. unfold js_div.
    destruct (Z.eqb_spec configured 0); [lia|]. simpl.
    eexists. split; [reflexivity|].
    unfold Qlt, Qdiv, Qmult, Qinv, inject_Z. simpl.
    destruct configured as [|c|c]; try lia. simpl. nia.
Qed.

End StatsEdgeProperties.

(* ===================================================================== *)
(** ** More of the identity handlers *)
(* ===================================================================== *)

Ltac run_auth :=
  cbv beta iota zeta delta
    [bind ret throw try_catch emit getItem setItem removeItem Date_now alert
     console_log console_error store_of with_store forEach
     sessionStorage localStorage clock ticks faults trace
     result after fst snd negb andb
     onAuthStateChange clearUserInterviewData checkInterviewState signOut].

Section IdentityEdgeProperties.

Lemma list_ascii_of_string_app s t :
  list_ascii_of_string (s +:+ t)
    = (list_ascii_of_string s ++ list_ascii_of_string t)%list.
Proof. induction s as [|c s IH]; simpl; [done|by rewrite IH]. Qed.

Lemma list_ascii_of_string_inj s t :
  list_ascii_of_string s = list_ascii_of_string t → s = t.
Proof.
  intros Heq. rewrite <- (string_of_list_ascii_of_string s),
    <- (string_of_list_ascii_of_string t). by rewrite Heq.
Qed.

Lemma scoped_session_keys_differ A B :
  "interview_" +:+ B +:+ "_session" = "interview_" +:+ A +:+ "_session" → B = A.
Proof.
  intros Heq. apply (f_equal list_ascii_of_string) in Heq.
  rewrite !list_ascii_of_string_app in Heq.
  apply app_inv_head in Heq. apply app_inj_2 in Heq as [Heq _]; [|done].
  by apply list_ascii_of_string_inj.
Qed.

Lemma scoped_backup_keys_differ A B :
  "interview_" +:+ B +:+ "_backup" = "interview_" +:+ A +:+ "_backup" → B = A.
Proof.
  intros Heq. apply (f_equal list_ascii_of_string) in Heq.
  rewrite !list_ascii_of_string_app in Heq.
  apply app_inv_head in Heq. apply app_inj_2 in Heq as [Heq _]; [|done].
  by apply list_ascii_of_string_inj.
Qed.

Lemma scoped_session_is_no_backup_key A B :
  "interview_" +:+ B +:+ "_session" ≠ "interview_" +:+ A +:+ "_backup".
Proof.
  intros Heq. apply (f_equal list_ascii_of_string) in Heq.
  rewrite !list_ascii_of_string_app in Heq.
  apply app_inv_head in Heq.
  change (list_ascii_of_string "_session")
    with (["_"%char] ++ list_ascii_of_string "session")%list in Heq.
  rewrite app_assoc in Heq.
  apply app_inj_2 in Heq as [_ Heq]; [discriminate|done].
Qed.

Lemma other_user_keys_kept A B :
  B ≠ A →
  (("interview_" +:+ B +:+ "_session") ∉ interview_keys A) ∧
  (("interview_" +:+ B +:+ "_backup") ∉ interview_keys A).
Proof.
  intros Hne. unfold interview_keys. rewrite !not_elem_of_cons. repeat split;
    try apply not_elem_of_nil; try discriminate.
  - intros Heq. by apply scoped_session_keys_differ in Heq.
  - apply scoped_session_is_no_backup_key.
  - intros Heq. symmetry in Heq. by apply scoped_session_is_no_backup_key in Heq.
  - intros Heq. by apply scoped_backup_keys_differ in Heq.
Qed.

Lemma kept_key (m : gmap string string) userId key :
  key ∉ interview_keys userId →
  delete "interviewSessionBackup" (delete "interviewSession"
    (delete ("interview_" +:+ userId +:+ "_backup")
      (delete ("interview_" +:+ userId +:+ "_session") m))) !! key = m !! key.
Proof.
  unfold interview_keys. rewrite !not_elem_of_cons.
  intros (H1 & H2 & H3 & H4 & _).
  rewrite (lookup_delete_ne _ "interviewSessionBackup" key) by congruence.
  rewrite (lookup_delete_ne _ "interviewSession" key) by congruence.
  rewrite (lookup_delete_ne _ ("interview_" +:+ userId +:+ "_backup") key)
    by congruence.
  rewrite (lookup_delete_ne _ ("interview_" +:+ userId +:+ "_session") key)
    by congruence.
  reflexivity.
Qed.

Lemma marker_kept userId : "currentUserId" ∉ interview_keys userId.
Proof.
  unfold interview_keys. rewrite !not_elem_of_cons.
  repeat split; try discriminate. apply not_elem_of_nil.
Qed.

(** X12. clearUserInterviewData never raises, consumes no write and
    removes from both storage areas exactly the four interview keys of the
    user: every other entry is as before, in particular the scoped entries
    of any other user and the remembered identity. *)
Theorem clear_user_data_removes_four_keys userId w :
  let w' := after (clearUserInterviewData userId w) in
  result (clearUserInterviewData userId w) = Return tt ∧
  faults w' = faults w ∧
  (∀ sc key, key ∈ interview_keys userId → store_of sc w' !! key = None) ∧
  (∀ sc key, key ∉ interview_keys userId →
             store_of sc w' !! key = store_of sc w !! key) ∧
  (∀ other sc, other ≠ userId →
     store_of sc w' !! ("interview_" +:+ other +:+ "_session")
       = store_of sc w !! ("interview_" +:+ other +:+ "_session") ∧
     store_of sc w' !! ("interview_" +:+ other +:+ "_backup")
       = store_of sc w !! ("interview_" +:+ other +:+ "_backup")) ∧
  (∀ sc, store_of sc w' !! "currentUserId" = store_of sc w !! "currentUserId").
Proof.
  destruct w as [ss ls ck tk fs tr]. run_auth.
  assert (Hin : ∀ sc key, key ∈ interview_keys userId →
    match sc with
    | SessionScope => delete "interviewSessionBackup" (delete "interviewSession"
        (delete ("interview_" +:+ userId +:+ "_backup")
          (delete ("interview_" +:+ userId +:+ "_session") ss)))
    | LocalScope => delete "interviewSessionBackup" (delete "interviewSession"
        (delete ("interview_" +:+ userId +:+ "_backup")
          (delete ("interview_" +:+ userId +:+ "_session") ls)))
    end !! key = None).
  { intros [] key Hkey; [exact (purged_key ss userId key Hkey)
                        |exact (purged_key ls userId key Hkey)]. }
  assert (Hout : ∀ sc key, key ∉ interview_keys userId →
    match sc with
    | SessionScope => delete "interviewSessionBackup" (delete "interviewSession"
        (delete ("interview_" +:+ userId +:+ "_backup")
          (delete ("interview_" +:+ userId +:+ "_session") ss)))
    | LocalScope => delete "interviewSessionBackup" (delete "interviewSession"
        (delete ("interview_" +:+ userId +:+ "_backup")
          (delete ("interview_" +:+ userId +:+ "_session") ls)))
    end !! key = match sc with SessionScope => ss | LocalScope => ls end !! key).
  { intros [] key Hkey; [exact (kept_key ss userId key Hkey)
                        |exact (kept_key ls userId key Hkey)]. }
  split; [reflexivity|]. split; [reflexivity|].
  split; [exact Hin|]. split; [exact Hout|]. split.
  - intros other sc Hne. destruct (other_user_keys_kept userId other Hne) as [H1 H2].
    split; [exact (Hout sc _ H1)|exact (Hout sc _ H2)].
  - intros sc. exact (Hout sc _ (marker_kept userId)).
Qed.

(** X13. On SIGNED_OUT with a remembered identity [A] the handler returns
    normally, removes the four interview keys of [A] from both storage
    areas and forgets the identity. *)
Theorem sign_out_purges_remembered_user (A : string) (session : option string) w :
  localStorage w !! "currentUserId" = Some A →
  A ≠ "" →
  let w' := after (onAuthStateChange SIGNED_OUT session w) in
  result (onAuthStateChange SIGNED_OUT session w) = Return tt ∧
  (∀ sc key, key ∈ interview_keys A → store_of sc w' !! key = None) ∧
  localStorage w' !! "currentUserId" = None ∧
  faults w' = faults w.
Proof.
  intros Hm HA. destruct w as [ss ls ck tk fs tr]. simpl in Hm.
  destruct session as [userId|]; run_auth; rewrite Hm;
    (destruct (String.eqb_spec A ""); [done|]); run_auth;
    (split; [reflexivity|]);
    (split; [|split; [apply lookup_delete_eq|reflexivity]]);
    intros [] key Hkey;
    try exact (purged_key ss A key Hkey);
    (rewrite (lookup_delete_ne _ "currentUserId" key)
       by exact (marker_is_no_interview_key A key Hkey));
    exact (purged_key ls A key Hkey).
Qed.

(** X14. With no remembered identity, SIGNED_OUT changes neither storage
    area, and a SIGNED_IN of any user that follows changes at most the
    remembered identity: a session stored under the unscoped keys stays. *)
Theorem sign_out_without_marker_keeps_session (B : string) w :
  localStorage w !! "currentUserId" = None →
  let w1 := after (onAuthStateChange SIGNED_OUT None w) in
  let w2 := after (onAuthStateChange SIGNED_IN (Some B) w1) in
  sessionStorage w1 = sessionStorage w ∧
  localStorage w1 = localStorage w ∧
  sessionStorage w2 = sessionStorage w ∧
  (∀ key, key ≠ "currentUserId" → localStorage w2 !! key = localStorage w !! key).
Proof.
  intros Hm. destruct w as [ss ls ck tk fs tr]. simpl in Hm.
  run_auth. rewrite Hm. run_auth.
  rewrite (delete_id ls "currentUserId" Hm). rewrite Hm.
  split; [reflexivity|]. split; [reflexivity|].
  destruct fs as [|[err|] fs]; run_auth; (split; [reflexivity|]);
    intros key Hkey; try reflexivity;
    by rewrite (lookup_insert_ne ls "currentUserId" key B).
Qed.

(** X15. SIGNED_IN of the remembered identity leaves both storage areas as
    they were. With no (or an empty) remembered identity it changes at
    most the entry of the remembered identity. SIGNED_IN without a session
    and every other event change no storage. *)
Theorem sign_in_of_remembered_user_keeps_storage (B : string) w :
  let w' := after (onAuthStateChange SIGNED_IN (Some B) w) in
  (localStorage w !! "currentUserId" = Some B →
   sessionStorage w' = sessionStorage w ∧ localStorage w' = localStorage w) ∧
  (localStorage w !! "currentUserId" = None ∨
   localStorage w !! "currentUserId" = Some "" →
   sessionStorage w' = sessionStorage w ∧
   ∀ key, key ≠ "currentUserId" → localStorage w' !! key = localStorage w !! key) ∧
  sessionStorage (after (onAuthStateChange SIGNED_IN None w)) = sessionStorage w ∧
  localStorage (after (onAuthStateChange SIGNED_IN None w)) = localStorage w ∧
  sessionStorage (after (onAuthStateChange OTHER_EVENT (Some B) w)) = sessionStorage w ∧
  localStorage (after (onAuthStateChange OTHER_EVENT (Some B) w)) = localStorage w.
Proof.
  destruct w as [ss ls ck tk fs tr]. simpl.
  split; [|split; [|by repeat split]].
  - intros Hm. run_auth. rewrite Hm.
    destruct (String.eqb_spec B ""); destruct (String.eqb_spec B B); try done;
      run_auth; destruct fs as [|[err|] fs]; run_auth;
      (split; [reflexivity|]); try reflexivity;
      exact (insert_id ls "currentUserId" B Hm).
  - intros [Hm|Hm]; run_auth; rewrite Hm; run_auth;
      try (destruct (String.eqb_spec "" ""); [|done]; run_auth);
      destruct fs as [|[err|] fs]; run_auth; (split; [reflexivity|]);
      intros key Hkey; try reflexivity;
      by rewrite (lookup_insert_ne ls "currentUserId" key B).
Qed.

(** X16. checkInterviewState changes no storage and consumes no write. For
    the empty user id it answers false without touching the page; for any
    other it answers true exactly when the scoped session key or the scoped
    backup key holds a non-empty string, and it does not read localStorage
    when the session key already does. *)
Theorem check_state_reads_scoped_keys userId w :
  let sessionKey := "interview_" +:+ userId +:+ "_session" in
  let backupKey := "interview_" +:+ userId +:+ "_backup" in
  let w' := after (checkInterviewState userId w) in
  sessionStorage w' = sessionStorage w ∧
  localStorage w' = localStorage w ∧
  faults w' = faults w ∧
  (userId = "" → checkInterviewState userId w = (Return false, w)) ∧
  (userId ≠ "" →
   result (checkInterviewState userId w) =
     Return (truthy (sessionStorage w !! sessionKey) ||
             truthy (localStorage w !! backupKey))) ∧
  (truthy (sessionStorage w !! sessionKey) = true →
   reads LocalScope (trace w') = reads LocalScope (trace w)).
Proof.
  destruct w as [ss ls ck tk fs tr]. simpl.
  unfold checkInterviewState.
  destruct (String.eqb_spec userId "") as [->|Hne].
  - repeat split; done.
  - unfold try_catch, bind. simpl.
    destruct (truthy (ss !! _)) eqn:Hs; simpl; repeat split; try done.
    intros _. by rewrite Hs.
Qed.

Section ProviderCall.
Variable supabase_auth_signOut : M (option string).

(** X17. authHelpers.signOut, for any behaviour of the provider's call:
    when the call reports an error or throws, signOut passes that on and
    leaves the page as the call left it; when it succeeds and an identity
    [A] was remembered before the call, the four interview keys of [A] are
    gone from both areas and every other entry is as the call left it;
    with no remembered identity nothing more happens. *)
Theorem sign_out_helper_purges_after_success w :
  let w0 := after (getItem LocalScope "currentUserId" w) in
  let w1 := after (supabase_auth_signOut w0) in
  let w' := after (signOut supabase_auth_signOut w) in
  (∀ message, result (supabase_auth_signOut w0) = Return (Some message) →
     result (signOut supabase_auth_signOut w) = Return (Some message) ∧ w' = w1) ∧
  (∀ e, result (supabase_auth_signOut w0) = Throw e →
     result (signOut supabase_auth_signOut w) = Throw e ∧ w' = w1) ∧
  (∀ A, result (supabase_auth_signOut w0) = Return None →
     localStorage w !! "currentUserId" = Some A → A ≠ "" →
     result (signOut supabase_auth_signOut w) = Return None ∧
     (∀ sc key, key ∈ interview_keys A → store_of sc w' !! key = None) ∧
     (∀ sc key, key ∉ interview_keys A →
                store_of sc w' !! key = store_of sc w1 !! key)) ∧
  (result (supabase_auth_signOut w0) = Return None →
   localStorage w !! "currentUserId" = None ∨
   localStorage w !! "currentUserId" = Some "" →
   result (signOut supabase_auth_signOut w) = Return None ∧ w' = w1).
Proof.
  destruct w as [ss ls ck tk fs tr]. run_auth.
  destruct (supabase_auth_signOut _)
    as [[[message|]|e] [ss1 ls1 ck1 tk1 fs1 tr1]]; run_auth.
  - split; [|split; [|split]]; try (intros; discriminate).
    intros m [= <-]. by destruct (ls !! "currentUserId").
  - split; [intros; discriminate|]. split; [intros; discriminate|]. split.
    + intros A _ Hm HA. rewrite Hm.
      destruct (String.eqb_spec A ""); [done|]. run_auth.
      split; [reflexivity|]. split.
      * intros [] key Hkey; [exact (purged_key ss1 A key Hkey)
                            |exact (purged_key ls1 A key Hkey)].
      * intros [] key Hkey; [exact (kept_key ss1 A key Hkey)
                            |exact (kept_key ls1 A key Hkey)].
    + intros _ [Hm|Hm]; rewrite Hm; done.
  - split; [intros; discriminate|]. split; [|split; intros; discriminate].
    intros e0 [= <-]. done.
Qed.

End ProviderCall.

End IdentityEdgeProperties.

(* ===================================================================== *)
(** ** The handlers of AppContent *)
(* ===================================================================== *)

Section AppProperties.
Import AppContent.
Context `{JSON}.

Lemma current_session_built chosen answered w :
  faults w = [] →
  ∃ built w0,
    currentSession chosen answered w = (Return built, w0) ∧
    settings built = chosen ∧ questions built = answered ∧
    sessionStorage w0 = sessionStorage w ∧ localStorage w0 = localStorage w ∧
    faults w0 = [].
Proof.
  destruct w as [ss ls ck tk fs tr]. simpl. intros ->.
  unfold currentSession, bind.
  destruct answered as [|first rest]; simpl;
    [|destruct (timestamp first =? 0); simpl]; eauto 10.
Qed.

(** X18. After the saving effect ran on the interview screen with an
    accepting browser, the mount effect of a freshly mounted AppContent, on
    a page with the same backup and the same session entry or none,
    resumes: interview screen, the saved settings and questions, and the
    recovered flag, provided the stored record is not expired. *)
Theorem reload_resumes_saved_interview st chosen w w2 :
  currentScreen st = Screen.interview →
  interviewSettings st = Some chosen →
  faults w = [] →
  let w1 := after (saveOnChange true st w) in
  localStorage w2 !! BACKUP_KEY = localStorage w1 !! BACKUP_KEY →
  sessionStorage w2 !! SESSION_KEY = sessionStorage w1 !! SESSION_KEY ∨
  sessionStorage w2 !! SESSION_KEY = None →
  faults w2 = [] →
  (∀ stored, holds_session LocalScope BACKUP_KEY w1 stored →
             is_expired (clock w2 (ticks w2)) stored = false) →
  result (loadOnMount true false initialState w2) =
    Return (mkAppState Screen.interview (Some chosen) (interviewQuestions st) true).
Proof.
  intros Hscreen Hset Hf w1 Hl Hs Hf2 Hfresh.
  destruct (current_session_built chosen (interviewQuestions st) w Hf)
    as (built & w0 & Hbuilt & Hsettings & Hquestions & _ & _ & Hf0).
  assert (Hw1 : w1 = after (saveInterviewSession built w0)).
  { unfold w1, saveOnChange. rewrite Hscreen, Hset.
    unfold saveCurrentSession, bind. by rewrite Hbuilt. }
  pose proof (save_accepted built w0 Hf0) as [Hs1 Hl1].
  rewrite <- Hw1 in Hs1, Hl1.
  set (stamped := sessionWithTimestamp (clock w0 (ticks w0)) built) in *.
  assert (Hexp : is_expired (clock w2 (ticks w2)) stamped = false).
  { apply Hfresh. by apply holds_stringified. }
  rewrite Hl1 in Hl. rewrite Hs1 in Hs.
  assert (Hfound : finds w2 stamped).
  { destruct Hs as [Hs|Hs].
    - left. by apply holds_stringified.
    - right. split; [done|]. split; [by apply holds_stringified|done]. }
  pose proof (load_result w2 stamped Hfound) as Hres.
  unfold expiry_then_upgrade, upgrade in Hres. rewrite Hexp in Hres.
  simpl in Hres.
  unfold loadOnMount, bind. simpl.
  destruct (loadInterviewSession w2) as [o w3]. simpl in Hres. subst o. simpl.
  by rewrite Hsettings, Hquestions.
Qed.

Lemma load_after_clear w :
  result (loadInterviewSession (after (clearInterviewSession w))) = Return None.
Proof.
  destruct w as [ss ls ck tk fs tr]. unfold_ops. simpl.
  rewrite !lookup_delete_eq. simpl. by rewrite !lookup_delete_eq.
Qed.

Lemma mount_after_clear user loading st0 w :
  result (loadOnMount user loading st0 (after (clearInterviewSession w)))
    = Return st0.
Proof.
  unfold loadOnMount. destruct (user && negb loading); [|done].
  pose proof (load_after_clear w) as Hres. unfold bind.
  destruct (loadInterviewSession _) as [o w1]. simpl in Hres. by subst o.
Qed.

(** X19. After handleInterviewComplete, handleNewInterview or a confirmed
    handleBackToHome the mount effect recovers nothing. A declined
    handleBackToHome during an interview in progress changes neither state
    nor page, and outside of one the answer of the dialog is not used. The
    state handleInterviewComplete leaves holds the answered questions and
    makes the saving effect write nothing. *)
Theorem leaving_the_interview_prevents_resume st answered w user loading st0 :
  result (loadOnMount user loading st0
            (after (handleInterviewComplete answered st w))) = Return st0 ∧
  result (loadOnMount user loading st0 (after (handleNewInterview st w)))
    = Return st0 ∧
  result (loadOnMount user loading st0 (after (handleBackToHome true st w)))
    = Return st0 ∧
  (interviewInProgress st = true → handleBackToHome false st w = (Return st, w)) ∧
  (interviewInProgress st = false →
   handleBackToHome false st w = handleBackToHome true st w) ∧
  (∃ finished,
     result (handleInterviewComplete answered st w) = Return finished ∧
     interviewQuestions finished = answered ∧
     saveOnChange user finished (after (handleInterviewComplete answered st w))
       = (Return tt, after (handleInterviewComplete answered st w))).
Proof.
  assert (Hcomplete : after (handleInterviewComplete answered st w)
                      = after (clearInterviewSession w))
    by (by destruct w).
  assert (Hnew : after (handleNewInterview st w) = after (clearInterviewSession w))
    by (by destruct w).
  assert (Hback : after (handleBackToHome true st w) = after (clearInterviewSession w)).
  { unfold handleBackToHome. rewrite andb_false_r. by destruct w. }
  rewrite Hcomplete, Hnew, Hback.
  split; [apply mount_after_clear|]. split; [apply mount_after_clear|].
  split; [apply mount_after_clear|]. split; [|split].
  - intros Hin. unfold handleBackToHome. by rewrite Hin.
  - intros Hin. unfold handleBackToHome. by rewrite Hin.
  - destruct w as [ss ls ck tk fs tr]. eexists. split; [reflexivity|].
    split; reflexivity.
Qed.

End AppProperties.

(* ===================================================================== *)
(** ** The further properties on concrete pages *)
(* ===================================================================== *)

Section MoreWitnesses.
Import Examples Scenarios AppContent.
#[local] Existing Instance Codec.json.

Lemma recover_restores_verbatim_witness :
  localStorage (page_with_backup legacy_old) !! BACKUP_KEY
    = Some (JSON_stringify legacy_old) ∧
  is_expired noon legacy_old = true ∧
  result (loadInterviewSession (page_with_backup legacy_old)) = Return None ∧
  result (recoverSession (page_with_backup legacy_old)) = Return (Some legacy_old) ∧
  sessionStorage (after (recoverSession (page_with_backup legacy_old))) !! SESSION_KEY
    = Some (JSON_stringify legacy_old).
Proof.
  assert (Hl : localStorage (page_with_backup legacy_old) !! BACKUP_KEY
               = Some (JSON_stringify legacy_old)) by apply lookup_singleton_eq.
  destruct (recover_restores_verbatim (page_with_backup legacy_old)
              (JSON_stringify legacy_old) legacy_old Hl
              (JSON_stringify_truthy legacy_old)
              (JSON_parse_stringify legacy_old) eq_refl)
    as (Hres & Hs & _ & Hrefused).
  assert (Hexp : is_expired noon legacy_old = true) by (vm_compute; reflexivity).
  split; [exact Hl|]. split; [exact Hexp|].
  split; [exact (Hrefused (lookup_empty _) Hexp)|].
  split; [exact Hres|exact Hs].
Defined.

Lemma recover_keeps_backup_witness :
  JSON_parse "{broken" = None ∧
  result (recoverSession corrupt_backup_page) = Return None ∧
  sessionStorage (after (recoverSession corrupt_backup_page))
    = sessionStorage corrupt_backup_page ∧
  localStorage (after (recoverSession corrupt_backup_page)) !! BACKUP_KEY
    = Some "{broken".
Proof.
  destruct (recover_keeps_backup corrupt_backup_page) as (_ & Hl & _ & Hnone).
  assert (Hp : JSON_parse "{broken" = None) by (vm_compute; reflexivity).
  destruct Hnone as [Hres Hs].
  { right. right. exists "{broken". split; [apply lookup_singleton_eq|exact Hp]. }
  split; [exact Hp|]. split; [exact Hres|]. split; [exact Hs|].
  rewrite Hl. apply lookup_singleton_eq.
Defined.

Lemma clear_leaves_nothing_to_load_witness :
  result (loadInterviewSession (page_with recent)) = Return (Some recent) ∧
  result (loadInterviewSession (after (clearInterviewSession (page_with recent))))
    = Return None ∧
  result (recoverSession (after (clearInterviewSession (page_with recent))))
    = Return None.
Proof.
  destruct (clear_leaves_nothing_to_load (page_with recent))
    as (_ & Hload & Hrecover & _).
  split; [vm_compute; reflexivity|]. split; [exact Hload|exact Hrecover].
Defined.

Lemma load_discards_corrupt_data_witness :
  holds_session LocalScope BACKUP_KEY corrupt_primary_page recent ∧
  result (loadInterviewSession corrupt_primary_page) = Return None ∧
  sessionStorage (after (loadInterviewSession corrupt_primary_page)) !! SESSION_KEY
    = None ∧
  localStorage (after (loadInterviewSession corrupt_primary_page)) !! BACKUP_KEY
    = None.
Proof.
  split.
  { apply holds_stringified. apply lookup_singleton_eq. }
  apply (load_discards_corrupt_data corrupt_primary_page "{broken").
  - discriminate.
  - vm_compute. reflexivity.
  - left. apply lookup_singleton_eq.
Defined.

Lemma load_loses_backup_when_write_back_fails_witness :
  holds_session LocalScope BACKUP_KEY unwritable_page recent ∧
  result (loadInterviewSession unwritable_page) = Return None ∧
  sessionStorage (after (loadInterviewSession unwritable_page)) !! SESSION_KEY = None ∧
  localStorage (after (loadInterviewSession unwritable_page)) !! BACKUP_KEY = None.
Proof.
  assert (Hb : holds_session LocalScope BACKUP_KEY unwritable_page recent)
    by (apply holds_stringified; apply lookup_singleton_eq).
  split; [exact Hb|].
  apply (load_loses_backup_when_write_back_fails unwritable_page recent
           (DOMException 22) []); [apply lookup_empty|exact Hb|reflexivity].
Defined.

Lemma load_only_reads_when_nothing_changes_witness :
  result (loadInterviewSession (page_with recent)) = Return (Some recent) ∧
  sessionStorage (after (loadInterviewSession (page_with recent)))
    = sessionStorage (page_with recent) ∧
  localStorage (after (loadInterviewSession (page_with recent)))
    = localStorage (page_with recent) ∧
  mutations (trace (after (loadInterviewSession (page_with recent)))) = [].
Proof.
  destruct (load_only_reads_when_nothing_changes (page_with recent)) as [Hfound _].
  destruct (Hfound recent) as (Hres & Hs & Hl & _ & Hm).
  - apply holds_stringified. apply lookup_singleton_eq.
  - vm_compute. reflexivity.
  - reflexivity.
  - split; [exact Hres|]. split; [exact Hs|]. split; [exact Hl|exact Hm].
Defined.

Lemma save_then_load_round_trip_witness :
  result (loadInterviewSession (after (saveInterviewSession legacy_old empty_page)))
    = Return (Some (sessionWithTimestamp noon legacy_old)) ∧
  result (recoverSession (after (saveInterviewSession legacy_old empty_page)))
    = Return (Some (sessionWithTimestamp noon legacy_old)) ∧
  get_field Fquestions (sessionWithTimestamp noon legacy_old)
    = get_field Fquestions legacy_old.
Proof.
  destruct (save_then_load_round_trip legacy_old empty_page
              (after (saveInterviewSession legacy_old empty_page)) eq_refl eq_refl
              (or_introl eq_refl) eq_refl) as (Hload & Hrecover & Hfields).
  { vm_compute. reflexivity. }
  split; [exact Hload|]. split; [exact Hrecover|].
  apply Hfields; discriminate.
Defined.

Lemma save_stops_at_first_rejected_write_witness :
  faults half_full_page = [None; Some (DOMException 22)] ∧
  sessionStorage (after (saveInterviewSession recent half_full_page)) !! SESSION_KEY
    = Some (JSON_stringify (sessionWithTimestamp noon recent)) ∧
  localStorage (after (saveInterviewSession recent half_full_page)) !! BACKUP_KEY
    = Some (JSON_stringify legacy_old) ∧
  sessionStorage (after (saveInterviewSession recent full_page))
    = sessionStorage full_page.
Proof.
  destruct (save_stops_at_first_rejected_write recent half_full_page
              (DOMException 22) []) as [_ Hsecond].
  destruct (save_stops_at_first_rejected_write recent full_page
              (DOMException 22) []) as [Hfirst _].
  destruct (Hsecond eq_refl) as (Hs & Hl & _).
  destruct (Hfirst eq_refl) as (Hs' & _).
  split; [reflexivity|].
  split; [rewrite Hs; apply lookup_insert_eq|].
  split; [rewrite Hl; apply lookup_singleton_eq|exact Hs'].
Defined.

Lemma load_returns_current_format_witness :
  needs_upgrade legacy_recent = true ∧
  ∃ s, result (loadInterviewSession (page_with legacy_recent)) = Return (Some s) ∧
       needs_upgrade s = false.
Proof.
  split; [reflexivity|].
  destruct (load_returns_current_format (page_with legacy_recent)) as [_ Hcur].
  exists (upgradedSession noon legacy_recent).
  assert (Hres : result (loadInterviewSession (page_with legacy_recent))
                 = Return (Some (upgradedSession noon legacy_recent)))
    by (vm_compute; reflexivity).
  split; [exact Hres|exact (Hcur _ Hres)].
Defined.

Lemma stats_purge_expired_session_witness :
  finds (page_with legacy_old) legacy_old ∧
  result (getSessionStats (page_with legacy_old)) = Return no_session_stats ∧
  sessionStorage (after (getSessionStats (page_with legacy_old))) !! SESSION_KEY = None ∧
  localStorage (after (getSessionStats (page_with legacy_old))) !! BACKUP_KEY = None.
Proof.
  pose proof (finds_primary legacy_old (backup_of legacy_old) noon []) as Hfound.
  split; [exact Hfound|].
  apply (stats_purge_expired_session (page_with legacy_old) legacy_old Hfound).
  vm_compute. reflexivity.
Defined.

Lemma stats_rate_is_unbounded_witness :
  result (loadInterviewSession (page_with unconfigured)) = Return (Some unconfigured) ∧
  ∃ stats, result (getSessionStats (page_with unconfigured)) = Return stats ∧
           Stats.completionRate stats = PosInfinity.
Proof.
  assert (Hres : result (loadInterviewSession (page_with unconfigured))
                 = Return (Some unconfigured)) by (vm_compute; reflexivity).
  split; [exact Hres|].
  destruct (stats_rate_is_unbounded (page_with unconfigured) unconfigured Hres)
    as (stats & Hstats & _ & Hinf & _).
  exists stats. split; [exact Hstats|]. apply Hinf; [reflexivity|reflexivity].
Defined.

End MoreWitnesses.

Section IdentityWitnesses.
Import Examples Scenarios AppContent.
#[local] Existing Instance Codec.json.

Lemma clear_user_data_removes_four_keys_witness :
  "bob" ≠ "alice" ∧
  sessionStorage (after (clearUserInterviewData "alice" shared_page))
    !! "interview_bob_session" = Some "draft" ∧
  localStorage (after (clearUserInterviewData "alice" shared_page))
    !! "currentUserId" = Some "alice" ∧
  sessionStorage (after (clearUserInterviewData "alice" shared_page))
    !! "interviewSession" = None.
Proof.
  destruct (clear_user_data_removes_four_keys "alice" shared_page)
    as (_ & _ & Hin & _ & Hother & Hmarker).
  assert (Hne : "bob" ≠ "alice") by discriminate.
  destruct (Hother "bob" SessionScope Hne) as [Hbob _].
  split; [exact Hne|].
  split; [etransitivity; [exact Hbob|vm_compute; reflexivity]|].
  split; [etransitivity; [exact (Hmarker LocalScope)|vm_compute; reflexivity]|].
  apply (Hin SessionScope).
  do 2 apply list_elem_of_further. apply list_elem_of_here.
Defined.

Lemma sign_out_purges_remembered_user_witness :
  localStorage alice_page !! "currentUserId" = Some "alice" ∧
  result (onAuthStateChange SIGNED_OUT None alice_page) = Return tt ∧
  sessionStorage (after (onAuthStateChange SIGNED_OUT None alice_page))
    !! "interview_alice_session" = None ∧
  localStorage (after (onAuthStateChange SIGNED_OUT None alice_page))
    !! "interviewSessionBackup" = None ∧
  localStorage (after (onAuthStateChange SIGNED_OUT None alice_page))
    !! "currentUserId" = None.
Proof.
  assert (Hm : localStorage alice_page !! "currentUserId" = Some "alice")
    by (vm_compute; reflexivity).
  assert (Hne : "alice" ≠ "") by discriminate.
  destruct (sign_out_purges_remembered_user "alice" None alice_page Hm Hne)
    as (Hres & Hkeys & Hmarker & _).
  split; [exact Hm|]. split; [exact Hres|].
  split; [apply (Hkeys SessionScope); apply list_elem_of_here|].
  split; [apply (Hkeys LocalScope);
          do 3 apply list_elem_of_further; apply list_elem_of_here|].
  exact Hmarker.
Defined.

Lemma sign_out_without_marker_keeps_session_witness :
  localStorage anonymous_page !! "currentUserId" = None ∧
  sessionStorage
    (after (onAuthStateChange SIGNED_IN (Some "bob")
              (after (onAuthStateChange SIGNED_OUT None anonymous_page))))
    !! SESSION_KEY = Some (JSON_stringify recent) ∧
  result (loadInterviewSession
            (after (onAuthStateChange SIGNED_IN (Some "bob")
                      (after (onAuthStateChange SIGNED_OUT None anonymous_page)))))
    = Return (Some recent).
Proof.
  assert (Hm : localStorage anonymous_page !! "currentUserId" = None)
    by (vm_compute; reflexivity).
  destruct (sign_out_without_marker_keeps_session "bob" anonymous_page Hm)
    as (_ & _ & Hs & _).
  split; [exact Hm|].
  split; [rewrite Hs; apply lookup_singleton_eq|].
  vm_compute. reflexivity.
Defined.

Lemma sign_in_of_remembered_user_keeps_storage_witness :
  localStorage alice_page !! "currentUserId" = Some "alice" ∧
  sessionStorage (after (onAuthStateChange SIGNED_IN (Some "alice") alice_page))
    = sessionStorage alice_page ∧
  localStorage (after (onAuthStateChange SIGNED_IN (Some "alice") alice_page))
    = localStorage alice_page.
Proof.
  assert (Hm : localStorage alice_page !! "currentUserId" = Some "alice")
    by (vm_compute; reflexivity).
  destruct (sign_in_of_remembered_user_keeps_storage "alice" alice_page)
    as (Hsame & _).
  split; [exact Hm|]. exact (Hsame Hm).
Defined.

Lemma check_state_reads_scoped_keys_witness :
  "alice" ≠ "" ∧
  result (checkInterviewState "alice" alice_page) = Return true ∧
  result (checkInterviewState "bob" alice_page) = Return false ∧
  reads LocalScope (trace (after (checkInterviewState "alice" alice_page))) = [] ∧
  checkInterviewState "" alice_page = (Return false, alice_page).
Proof.
  destruct (check_state_reads_scoped_keys "alice" alice_page)
    as (_ & _ & _ & _ & Hres & Hshort).
  destruct (check_state_reads_scoped_keys "bob" alice_page)
    as (_ & _ & _ & _ & Hbob & _).
  destruct (check_state_reads_scoped_keys "" alice_page)
    as (_ & _ & _ & Hempty & _).
  assert (Hne : "alice" ≠ "") by discriminate.
  assert (Hnb : "bob" ≠ "") by discriminate.
  split; [exact Hne|].
  split; [etransitivity; [exact (Hres Hne)|vm_compute; reflexivity]|].
  split; [etransitivity; [exact (Hbob Hnb)|vm_compute; reflexivity]|].
  split; [etransitivity; [apply Hshort; vm_compute; reflexivity|reflexivity]|].
  exact (Hempty eq_refl).
Defined.

Lemma sign_out_helper_purges_after_success_witness :
  localStorage alice_page !! "currentUserId" = Some "alice" ∧
  result (signOut provider_signs_out alice_page) = Return None ∧
  sessionStorage (after (signOut provider_signs_out alice_page))
    !! "interviewSession" = None ∧
  result (signOut provider_fails alice_page) = Return (Some "network") ∧
  sessionStorage (after (signOut provider_fails alice_page)) !! "interviewSession"
    = Some (JSON_stringify recent).
Proof.
  assert (Hm : localStorage alice_page !! "currentUserId" = Some "alice")
    by (vm_compute; reflexivity).
  assert (Hne : "alice" ≠ "") by discriminate.
  destruct (sign_out_helper_purges_after_success provider_signs_out alice_page)
    as (_ & _ & Hok & _).
  destruct (sign_out_helper_purges_after_success provider_fails alice_page)
    as (Hfail & _).
  destruct (Hok "alice" eq_refl Hm Hne) as (Hres & Hkeys & _).
  destruct (Hfail "network" eq_refl) as (Hres' & Hw).
  split; [exact Hm|]. split; [exact Hres|].
  split; [apply (Hkeys SessionScope);
          do 2 apply list_elem_of_further; apply list_elem_of_here|].
  split; [exact Hres'|]. rewrite Hw. vm_compute. reflexivity.
Defined.

Lemma reload_resumes_saved_interview_witness :
  sessionStorage new_tab_page !! SESSION_KEY = None ∧
  result (loadOnMount true false initialState new_tab_page)
    = Return (mkAppState Screen.interview (Some it_interview) two_answers true) ∧
  result (loadOnMount true false initialState interview_page)
    = Return (mkAppState Screen.interview (Some it_interview) two_answers true).
Proof.
  assert (Hfresh : ∀ w2, clock w2 (ticks w2) = noon →
    ∀ stored, holds_session LocalScope BACKUP_KEY interview_page stored →
              is_expired (clock w2 (ticks w2)) stored = false).
  { intros w2 Hclock stored (text & Hl & _ & Hp). rewrite Hclock.
    vm_compute in Hl. injection Hl as <-. vm_compute in Hp.
    injection Hp as <-. vm_compute. reflexivity. }
  split; [apply lookup_empty|]. split.
  - apply (reload_resumes_saved_interview interviewing it_interview empty_page
             new_tab_page eq_refl eq_refl eq_refl eq_refl
             (or_intror (lookup_empty _)) eq_refl).
    apply Hfresh. reflexivity.
  - apply (reload_resumes_saved_interview interviewing it_interview empty_page
             interview_page eq_refl eq_refl eq_refl eq_refl
             (or_introl eq_refl) eq_refl).
    apply Hfresh. reflexivity.
Defined.

Lemma leaving_the_interview_prevents_resume_witness :
  interviewInProgress interviewing = true ∧
  result (loadOnMount true false initialState interview_page)
    = Return (mkAppState Screen.interview (Some it_interview) two_answers true) ∧
  result (loadOnMount true false initialState
            (after (handleInterviewComplete two_answers interviewing interview_page)))
    = Return initialState ∧
  handleBackToHome false interviewing interview_page
    = (Return interviewing, interview_page).
Proof.
  destruct (leaving_the_interview_prevents_resume interviewing two_answers
              interview_page true false initialState)
    as (Hcomplete & _ & _ & Hdeclined & _).
  split; [reflexivity|]. split; [vm_compute; reflexivity|].
  split; [exact Hcomplete|]. exact (Hdeclined eq_refl).
Defined.

End IdentityWitnesses.
